(** * media-downloader: the Streamlit front end of [app.py]

    A shallow embedding of [app.py] and the properties of its URL
    classifier, metadata fetchers, download invoker and job state store.

    Python values are modelled as the program sees them:
    - a [str] is a list of Unicode code points ([pystr]);
    - a decoded JSON document is a [pyval];
    - the Streamlit calls ([st.info], [st.error], ...) and the calls on the
      operating system ([os.makedirs], [subprocess.Popen], [process.kill])
      are recorded, in program order, in a list of [event]s;
    - what the outside world answers (the tool's exit code and output, the
      file system, the widgets of one script run) is an explicit argument. *)

From Stdlib Require Import ZArith NArith Ascii String DecimalString Lia.
From stdpp Require Import base option list gmap.

Local Open Scope list_scope.
#[local] Set Warnings "-clear-no-such-hyp".

(** ** Python strings *)

Module Py.

(** A [str]: its code points, in order. *)
Definition pystr := list N.

(** A literal of the source, written as a Rocq string of ASCII characters. *)
Fixpoint py (s : string) : pystr :=
  match s with
  | EmptyString => []
  | String a s' => N_of_ascii a :: py s'
  end.

(** [str.isspace] on one code point: the characters [str.strip()] removes. *)
Definition isspace (c : N) : bool :=
  ((9 <=? c) && (c <=? 13) || (28 <=? c) && (c <=? 32) || (c =? 133)
   || (c =? 160) || (c =? 5760) || (8192 <=? c) && (c <=? 8202)
   || (c =? 8232) || (c =? 8233) || (c =? 8239) || (c =? 8287)
   || (c =? 12288))%N.

Fixpoint lstrip (s : pystr) : pystr :=
  match s with
  | [] => []
  | c :: t => if isspace c then lstrip t else s
  end.

Definition rstrip (s : pystr) : pystr := rev (lstrip (rev s)).

(** [s.strip()] *)
Definition strip (s : pystr) : pystr := rstrip (lstrip s).

(** [s.split(sep)] for a one-character separator: never an empty list. *)
Fixpoint split (sep : N) (s : pystr) : list pystr :=
  match s with
  | [] => [[]]
  | c :: t =>
      if (c =? sep)%N then [] :: split sep t
      else match split sep t with
           | [] => [[c]]
           | w :: ws => (c :: w) :: ws
           end
  end.

Definition NL : N := 10.

(** [sep.join(parts)] *)
Fixpoint join (sep : pystr) (parts : list pystr) : pystr :=
  match parts with
  | [] => []
  | [p] => p
  | p :: ps => p ++ sep ++ join sep ps
  end.

(** [list(iter(stream.readline, ''))]: the lines of a text stream, each with
    its newline, the last one without when the text does not end in one. *)
Fixpoint readlines_from (cur : pystr) (s : pystr) : list pystr :=
  match s with
  | [] => match cur with [] => [] | _ => [rev cur] end
  | c :: t =>
      if (c =? NL)%N then rev (c :: cur) :: readlines_from [] t
      else readlines_from (c :: cur) t
  end.

Definition readlines (s : pystr) : list pystr := readlines_from [] s.

(** [s.startswith(p)] *)
Fixpoint startswith (p s : pystr) : bool :=
  match p, s with
  | [], _ => true
  | _ :: _, [] => false
  | a :: p', b :: s' => (a =? b)%N && startswith p' s'
  end.

(** [s.endswith(p)] *)
Definition endswith (p s : pystr) : bool := startswith (rev p) (rev s).

(** [needle in hay] on two strings. *)
Fixpoint contains (needle hay : pystr) : bool :=
  startswith needle hay
  || match hay with
     | [] => false
     | _ :: t => contains needle t
     end.

(** Truth value of a string: [if s:]. *)
Definition truthy (s : pystr) : bool :=
  match s with [] => false | _ => true end.

(** [str(n)] for an [int]. *)
Definition str_int (n : Z) : pystr := py (NilEmpty.string_of_int (Z.to_int n)).

(** [os.path.join(a, b)] as [posixpath] defines it. *)
Definition os_path_join (a b : pystr) : pystr :=
  if startswith (py "/") b then b
  else if negb (truthy a) || endswith (py "/") a then a ++ b
  else a ++ py "/" ++ b.

(** [os.path.basename(p)]: what follows the last slash. *)
Definition os_path_basename (p : pystr) : pystr :=
  match last (split 47%N p) with
  | Some b => b
  | None => []
  end.

End Py.
Import Py.

(** ** Regular expressions, as [re.search] uses them *)

Module Re.

(** The fragment of Python's pattern language that [playlist_patterns]
    is written in.  Groups only delimit: what they capture is never read. *)
Inductive regex : Type :=
| Void                                   (* matches nothing *)
| Eps                                    (* the empty string *)
| Chr (c : N)                            (* one literal character *)
| Cls (ranges : list (N * N))            (* [lo-hi...] *)
| Seq (r1 r2 : regex)
| Alt (r1 r2 : regex)
| Star (r : regex).

(** [r?], [r+] and a literal run of characters. *)
Definition Opt (r : regex) : regex := Alt r Eps.
Definition Plus (r : regex) : regex := Seq r (Star r).
Fixpoint Lit (s : pystr) : regex :=
  match s with
  | [] => Eps
  | c :: t => Seq (Chr c) (Lit t)
  end.

Definition in_ranges (ranges : list (N * N)) (c : N) : bool :=
  existsb (fun lh => (fst lh <=? c)%N && (c <=? snd lh)%N) ranges.

(** The strings a pattern matches in full. *)
Inductive matches : regex -> pystr -> Prop :=
| m_eps : matches Eps []
| m_chr c : matches (Chr c) [c]
| m_cls ranges c : in_ranges ranges c = true -> matches (Cls ranges) [c]
| m_seq r1 r2 s1 s2 :
    matches r1 s1 -> matches r2 s2 -> matches (Seq r1 r2) (s1 ++ s2)
| m_alt_l r1 r2 s : matches r1 s -> matches (Alt r1 r2) s
| m_alt_r r1 r2 s : matches r2 s -> matches (Alt r1 r2) s
| m_star_nil r : matches (Star r) []
| m_star_app r s1 s2 :
    matches r s1 -> matches (Star r) s2 -> matches (Star r) (s1 ++ s2).

(** Matching by derivatives: executable, one character at a time. *)
Fixpoint nullable (r : regex) : bool :=
  match r with
  | Void => false
  | Eps => true
  | Chr _ => false
  | Cls _ => false
  | Seq r1 r2 => nullable r1 && nullable r2
  | Alt r1 r2 => nullable r1 || nullable r2
  | Star _ => true
  end.

Fixpoint deriv (c : N) (r : regex) : regex :=
  match r with
  | Void => Void
  | Eps => Void
  | Chr d => if (c =? d)%N then Eps else Void
  | Cls ranges => if in_ranges ranges c then Eps else Void
  | Seq r1 r2 =>
      if nullable r1 then Alt (Seq (deriv c r1) r2) (deriv c r2)
      else Seq (deriv c r1) r2
  | Alt r1 r2 => Alt (deriv c r1) (deriv c r2)
  | Star r1 => Seq (deriv c r1) (Star r1)
  end.

(** [re.match(r, s) is not None]: some prefix of [s] matches. *)
Fixpoint match_prefix (r : regex) (s : pystr) : bool :=
  nullable r
  || match s with
     | [] => false
     | c :: t => match_prefix (deriv c r) t
     end.

(** [re.search(r, s) is not None]: a match starts at some position. *)
Fixpoint search (r : regex) (s : pystr) : bool :=
  match_prefix r s
  || match s with
     | [] => false
     | _ :: t => search r t
     end.

End Re.

(** ** The URL classifier *)

(** [(?:https?:\/\/)?] and [(?:www\.)?], the optional heads of both
    patterns, and the class [[a-zA-Z0-9_-]]. *)
Definition re_scheme : Re.regex :=
  Re.Opt (Re.Seq (Re.Lit (py "http"))
            (Re.Seq (Re.Opt (Re.Chr 115)) (Re.Lit (py "://")))).
Definition re_www : Re.regex := Re.Opt (Re.Lit (py "www.")).
Definition re_id_char : Re.regex :=
  Re.Cls [(97, 122); (65, 90); (48, 57); (95, 95); (45, 45)]%N.

Definition playlist_patterns : list Re.regex :=
  [ Re.Seq re_scheme (Re.Seq re_www
      (Re.Seq (Re.Lit (py "youtube.com/playlist?list=")) (Re.Plus re_id_char)));
    Re.Seq re_scheme (Re.Seq re_www
      (Re.Seq (Re.Lit (py "youtube.com/watch?v="))
         (Re.Seq (Re.Plus re_id_char)
            (Re.Seq (Re.Lit (py "&list=")) (Re.Plus re_id_char))))) ].

(** The loop over the patterns returns at the first that is found; the
    fallback is the substring test. *)
Fixpoint any_pattern (patterns : list Re.regex) (url : pystr) : bool :=
  match patterns with
  | [] => false
  | pattern :: rest =>
      if Re.search pattern url then true else any_pattern rest url
  end.

Definition is_playlist (url : pystr) : bool :=
  if any_pattern playlist_patterns url then true
  else contains (py "list=") url.

(** ** Python values, exceptions and effects *)

Local Set Warnings "-register-all".

(** What [json.loads] returns.  A [float] is carried by its [repr], the
    only thing the program ever reads from one. *)
Inductive pyval : Type :=
| PNone
| PBool (b : bool)
| PInt (n : Z)
| PFloat (repr : pystr)
| PStr (s : pystr)
| PList (items : list pyval)
| PDict (items : list (pystr * pyval)).

(** The exceptions the program names, each with its [str(e)]; every other
    subclass of [Exception] is an [OtherError]. *)
Inductive exn : Type :=
| TimeoutExpired
| JSONDecodeError (msg : pystr)
| OSError (msg : pystr)
| OtherError (msg : pystr).

(** How a call ends: it returns, it raises, or it never comes back. *)
Inductive result (A : Type) : Type :=
| Ok (a : A)
| Raise (e : exn)
| Blocked.
Arguments Ok {A} a.
Arguments Raise {A} e.
Arguments Blocked {A}.

(** Behaviour of the Python library that the repository does not define:
    the JSON decoder and the [repr] of a list or a dict. *)
Class PyRuntime : Type := {
  json_loads : pystr -> pyval + exn;
  repr_container : pyval -> pystr
}.

Inductive level : Type := LInfo | LCaption | LSuccess | LWarning | LError.

(** One observable action of the script, in program order. *)
Inductive event : Type :=
| Ui (lv : level) (text : pystr)         (* st.info, st.caption, ... *)
| Makedirs (path : pystr)                (* os.makedirs *)
| Popen (command : list pystr)           (* subprocess.Popen *)
| Kill.                                  (* process.kill *)

(** A computation: the events it performed, and how it ended. *)
Definition io (A : Type) : Type := list event * result A.

Definition io_ret {A} (a : A) : io A := ([], Ok a).

Definition io_bind {A B} (m : io A) (k : A -> io B) : io B :=
  match m with
  | (log, Ok a) => let (log', r) := k a in (log ++ log', r)
  | (log, Raise e) => (log, Raise e)
  | (log, Blocked) => (log, Blocked)
  end.

Definition emit (ev : event) : io unit := ([ev], Ok tt).
Definition raise {A} (e : exn) : io A := ([], Raise e).
Definition block {A} : io A := ([], Blocked).

(** [try: body except ...: handler]; [handler e = None] when no clause
    names the class of [e]. *)
Definition try_except {A} (body : io A) (handler : exn -> option (io A)) : io A :=
  match body with
  | (log, Raise e) =>
      match handler e with
      | Some h => let (log', r) := h in (log ++ log', r)
      | None => (log, Raise e)
      end
  | _ => body
  end.

#[global] Instance io_mret : MRet io := @io_ret.
#[global] Instance io_mbind : MBind io := fun A B k m => io_bind m k.

Definition st_info (text : pystr) : io unit := emit (Ui LInfo text).
Definition st_caption (text : pystr) : io unit := emit (Ui LCaption text).
Definition st_success (text : pystr) : io unit := emit (Ui LSuccess text).
Definition st_warning (text : pystr) : io unit := emit (Ui LWarning text).
Definition st_error (text : pystr) : io unit := emit (Ui LError text).

(** [if s: action] *)
Definition when_truthy (s : pystr) (action : io unit) : io unit :=
  if truthy s then action else io_ret tt.

(** [d.get(key)] on a dict, before the default is applied. *)
Fixpoint dict_lookup (d : list (pystr * pyval)) (key : pystr) : option pyval :=
  match d with
  | [] => None
  | (k, v) :: rest =>
      if decide (k = key) then Some v else dict_lookup rest key
  end.

Definition dict_get (d : list (pystr * pyval)) (key : pystr) (default : pyval) : pyval :=
  match dict_lookup d key with
  | Some v => v
  | None => default
  end.

(** [type(v).__name__] *)
Definition type_name (v : pyval) : pystr :=
  match v with
  | PNone => py "NoneType"
  | PBool _ => py "bool"
  | PInt _ => py "int"
  | PFloat _ => py "float"
  | PStr _ => py "str"
  | PList _ => py "list"
  | PDict _ => py "dict"
  end.

(** [v.get] on a value that is no dict. *)
Definition no_attribute_get (v : pyval) : exn :=
  OtherError (py "'" ++ type_name v ++ py "' object has no attribute 'get'").

Section Runtime.
Context `{PyRuntime}.

(** What an f-string writes for a value. *)
Definition py_format (v : pyval) : pystr :=
  match v with
  | PNone => py "None"
  | PBool true => py "True"
  | PBool false => py "False"
  | PInt n => str_int n
  | PFloat r => r
  | PStr s => s
  | PList _ | PDict _ => repr_container v
  end.

(** ** The metadata fetcher *)

(** A video record: the dict the fetchers build.  [v_index] is the key
    [filename_playlist_index], which only playlist records have. *)
Record video : Type := {
  v_id : pyval;
  v_title : pyval;
  v_url : pystr;
  v_index : option pyval
}.

(** How [Popen] followed by [communicate(timeout=...)] ends. *)
Inductive communicate_result : Type :=
| CommDone (returncode : Z) (stdout stderr : pystr)
| CommTimeout
| CommFails (msg : pystr).     (* any other exception, with its str(e) *)

Definition communicate (command : list pystr) (r : communicate_result)
  : io (Z * pystr * pystr) :=
  emit (Popen command) ;;
  match r with
  | CommDone rc out err => io_ret (rc, out, err)
  | CommTimeout => raise TimeoutExpired
  | CommFails msg => raise (OtherError msg)
  end.

Fixpoint enumerate_from {A} (i : nat) (l : list A) : list (nat * A) :=
  match l with
  | [] => []
  | x :: t => (i, x) :: enumerate_from (S i) t
  end.
Definition enumerate {A} (l : list A) : list (nat * A) := enumerate_from 0 l.

(** The index used for naming: the tool's [playlist_index], or the
    position of the line counted from one. *)
Definition naming_index (i : nat) (video_data : list (pystr * pyval)) : pyval :=
  match dict_get video_data (py "playlist_index") PNone with
  | PNone => PInt (Z.of_nat i + 1)
  | idx => idx
  end.

(** The dict appended for one decoded line. *)
Definition playlist_record (i : nat) (video_data : list (pystr * pyval)) : video :=
  let actual_playlist_index_for_naming := naming_index i video_data in
  {| v_id := dict_get video_data (py "id") PNone;
     v_title :=
       dict_get video_data (py "title")
         (PStr (py "Untitled Video " ++ py_format actual_playlist_index_for_naming));
     v_url :=
       py "https://www.youtube.com/watch?v="
       ++ py_format (dict_get video_data (py "id") PNone);
     v_index := Some actual_playlist_index_for_naming |}.

(** The body of the [for i, line in enumerate(...)] loop, with the list
    [videos_info] it appends to. *)
Fixpoint playlist_loop (lines : list (nat * pystr)) (videos_info : list video)
  : io (list video) :=
  match lines with
  | [] => io_ret videos_info
  | (i, line) :: rest =>
      if truthy line then
        match json_loads line with
        | inl (PDict video_data) =>
            playlist_loop rest (videos_info ++ [playlist_record i video_data])
        | inl v => raise (no_attribute_get v)
        | inr (JSONDecodeError e) =>
            st_warning (py "Could not parse video info line: " ++ line
                        ++ py ". Error: " ++ e) ;;
            playlist_loop rest videos_info
        | inr e => raise e
        end
      else playlist_loop rest videos_info
  end.

(** [str(e)], where the program formats it; it never formats a
    [TimeoutExpired]. *)
Definition exn_str (e : exn) : pystr :=
  match e with
  | TimeoutExpired => []
  | JSONDecodeError msg | OSError msg | OtherError msg => msg
  end.

Definition get_playlist_info (playlist_url : pystr) (tool : communicate_result)
  : io (list video) :=
  let command :=
    [py "yt-dlp"; py "--flat-playlist"; py "--print-json"; playlist_url] in
  st_info (py "Fetching playlist info with command: " ++ join (py " ") command) ;;
  try_except
    ('(returncode, stdout, stderr) ← communicate command tool;
     if negb (returncode =? 0)%Z then
       st_error (py "Error fetching playlist info (yt-dlp exited with "
                 ++ str_int returncode ++ py "):") ;;
       when_truthy stderr (st_error (py "stderr: " ++ stderr)) ;;
       when_truthy stdout (st_warning (py "stdout: " ++ stdout)) ;;
       io_ret []
     else if negb (truthy (strip stdout)) then
       st_warning (py "No output from yt-dlp for playlist info. The playlist might be empty or private.") ;;
       io_ret []
     else playlist_loop (enumerate (split NL (strip stdout))) [])
    (fun e =>
       match e with
       | TimeoutExpired =>
           Some (st_error (py "Fetching playlist info timed out. The playlist might be very large or there could be network issues.") ;;
                 io_ret [])
       | _ =>
           Some (st_error (py "An exception occurred while fetching playlist info: "
                           ++ exn_str e) ;;
                 io_ret [])
       end).

(** [stdout] as an [except] clause finds it: bound once [communicate]
    has returned, which it has whenever [json.loads] raises. *)
Definition stdout_of (tool : communicate_result) : pystr :=
  match tool with
  | CommDone _ stdout _ => stdout
  | _ => []
  end.

Definition get_single_video_info (video_url : pystr) (tool : communicate_result)
  : io (option video) :=
  let command := [py "yt-dlp"; py "--print-json"; video_url] in
  st_info (py "Fetching single video info with command: " ++ join (py " ") command) ;;
  try_except
    ('(returncode, stdout, stderr) ← communicate command tool;
     if negb (returncode =? 0)%Z then
       st_error (py "Error fetching video info (yt-dlp exited with "
                 ++ str_int returncode ++ py "):") ;;
       when_truthy stderr (st_error (py "stderr: " ++ stderr)) ;;
       when_truthy stdout (st_warning (py "stdout: " ++ stdout)) ;;
       io_ret None
     else if negb (truthy (strip stdout)) then
       st_warning (py "No output from yt-dlp for single video info.") ;;
       io_ret None
     else
       match json_loads stdout with
       | inl (PDict video_data) =>
           io_ret (Some {| v_id := dict_get video_data (py "id") PNone;
                           v_title := dict_get video_data (py "title")
                                        (PStr (py "Untitled Video"));
                           v_url := video_url;
                           v_index := None |})
       | inl v => raise (no_attribute_get v)
       | inr e => raise e
       end)
    (fun e =>
       match e with
       | TimeoutExpired =>
           Some (st_error (py "Fetching single video info timed out.") ;; io_ret None)
       | JSONDecodeError msg =>
           Some (st_error (py "Could not parse single video JSON: "
                           ++ stdout_of tool
                           ++ py ". Error: " ++ msg) ;;
                 io_ret None)
       | _ =>
           Some (st_error (py "An exception occurred while fetching single video info: "
                           ++ exn_str e) ;;
                 io_ret None)
       end).

(** ** The download invoker *)

(** What reading one pipe of the subprocess to its end gives: the text as
    the text-mode pipe hands it over (decoded, newlines translated). *)
Inductive stream : Type :=
| Text (s : pystr)              (* the text read before end of file *)
| ReadFails (msg : pystr)       (* readline raised *)
| NeverEnds.                    (* end of file never comes *)

(** What [process.wait(timeout=600)] gives; on a timeout, whether the
    process is still running when [process.poll()] looks. *)
Inductive wait_result : Type :=
| Exited (returncode : Z)
| WaitTimeout (still_running : bool).

(** The world one call of [download_video_yt_dlp] meets.  Paths are taken
    to be ones [os.makedirs] can only refuse with an [OSError]. *)
Record dl_world : Type := {
  dir_exists : bool;                 (* os.path.exists(download_path) *)
  makedirs_error : option pystr;     (* the OSError of os.makedirs, if any *)
  popen_error : option pystr;        (* the exception of Popen, if any *)
  proc_stdout : stream;
  proc_stderr : stream;
  proc_wait : wait_result;
  file_exists : pystr -> bool        (* os.path.exists after the wait *)
}.

(** The lines the reading loop keeps of a text: each one stripped, the
    empty ones dropped. *)
Definition kept_lines (s : pystr) : list pystr :=
  List.filter truthy (List.map strip (readlines s)).

(** [for line in iter(stream.readline, ''): line = line.strip();
    if line: lines.append(line)] *)
Definition read_lines (st : stream) : io (list pystr) :=
  match st with
  | Text s => mret (kept_lines s)
  | ReadFails msg => raise (OtherError msg)
  | NeverEnds => block
  end.

Definition output_template (playlist_index_for_filename : pyval) : pystr :=
  match playlist_index_for_filename with
  | PNone => py "%(title)s.%(ext)s"
  | idx => py_format idx ++ py " - %(title)s.%(ext)s"
  end.

Definition download_command (video_url download_path : pystr)
    (playlist_index_for_filename : pyval) : list pystr :=
  let output_template_str := output_template playlist_index_for_filename in
  let full_output_template := os_path_join download_path output_template_str in
  [py "yt-dlp"; py "-o"; full_output_template; py "--no-simulate";
   py "--print"; py "filename"; video_url].

(** [stdout_lines[-1]] of a list known to be non-empty. *)
Definition last_line (lines : list pystr) : pystr := List.last lines [].

(** [if not os.path.exists(download_path): ...]; false when the
    directory could not be made and the function has returned [None]. *)
Definition ensure_directory (w : dl_world) (download_path : pystr) : io bool :=
  if dir_exists w then mret true
  else
    emit (Makedirs download_path) ;;
    match makedirs_error w with
    | None => mret true
    | Some e =>
        st_error (py "Failed to create download directory "
                  ++ download_path ++ py ": " ++ e) ;;
        mret false
    end.

(** The body of the [try] statement. *)
Definition download_body (w : dl_world) (video_url : pystr)
    (command : list pystr) : io (option pystr) :=
  emit (Popen command) ;;
  match popen_error w with
  | Some msg => raise (OtherError msg)
  | None => mret tt
  end ;;
  stdout_lines ← read_lines (proc_stdout w);
  stderr_lines ← read_lines (proc_stderr w);
  returncode ← match proc_wait w with
               | Exited rc => mret rc
               | WaitTimeout _ => raise TimeoutExpired
               end;
  let stdout_full := join [NL] stdout_lines in
  let stderr_full := join [NL] stderr_lines in
  if (returncode =? 0)%Z && negb (bool_decide (stdout_lines = [])) then
    let downloaded_file_path := last_line stdout_lines in
    if file_exists w downloaded_file_path then
      st_success (py "Server download complete: "
                  ++ os_path_basename downloaded_file_path) ;;
      mret (Some downloaded_file_path)
    else
      st_error (py "yt-dlp reported success, but file not found: "
                ++ downloaded_file_path) ;;
      when_truthy stdout_full (st_info (py "yt-dlp stdout:" ++ [NL] ++ stdout_full)) ;;
      when_truthy stderr_full (st_warning (py "yt-dlp stderr:" ++ [NL] ++ stderr_full)) ;;
      mret None
  else
    st_error (py "Download failed for " ++ video_url
              ++ py " (yt-dlp exit code: " ++ str_int returncode ++ py ").") ;;
    when_truthy stdout_full (st_info (py "yt-dlp stdout:" ++ [NL] ++ stdout_full)) ;;
    when_truthy stderr_full (st_warning (py "yt-dlp stderr:" ++ [NL] ++ stderr_full)) ;;
    mret None.

(** The two [except] clauses. *)
Definition download_handlers (w : dl_world) (video_url : pystr) (e : exn)
  : option (io (option pystr)) :=
  match e with
  | TimeoutExpired =>
      Some (st_error (py "Download timed out for " ++ video_url
                      ++ py ". The video might be too large or network slow.") ;;
            match proc_wait w with
            | WaitTimeout true =>
                emit Kill ;;
                st_warning (py "yt-dlp process was killed due to timeout.")
            | _ => mret tt
            end ;;
            mret None)
  | _ =>
      Some (st_error (py "An unexpected error occurred during download: "
                      ++ exn_str e) ;;
            mret None)
  end.

Definition download_video_yt_dlp (w : dl_world) (video_url download_path : pystr)
    (playlist_index_for_filename : pyval) : io (option pystr) :=
  ready ← ensure_directory w download_path;
  if negb ready then mret None
  else
    let command :=
      download_command video_url download_path playlist_index_for_filename in
    st_info (py "Attempting to download: " ++ video_url) ;;
    st_caption (py "yt-dlp command: " ++ join (py " ") command) ;;
    try_except (download_body w video_url command)
      (download_handlers w video_url).

End Runtime.

(** ** The job state store and one run of the script *)

Inductive status : Type := pending | processing | completed | failed.

(** An entry of [download_status]: the dict with the keys [status] and,
    once a download has ended, [path]. *)
Record job : Type := {
  j_status : status;
  j_path : option pystr
}.

Definition DOWNLOAD_DIR : pystr := py "yt_dlp_downloads".

(** How a stretch of the script ends: it runs on to the next statement, or
    the run stops there ([st.experimental_rerun], an uncaught exception, a
    call that never returns). *)
Inductive flow (A : Type) : Type :=
| Continue (a : A)
| Stop (a : A).
Arguments Continue {A} a.
Arguments Stop {A} a.

(** The state a stretch of the script leaves behind. *)
Definition flow_val {A} (f : flow A) : A :=
  match f with
  | Continue a => a
  | Stop a => a
  end.

Section Session.
Context `{PyRuntime} {K : Type} `{Countable K}.

(** The identity of a value used as a dict key (Python's [hash] and [==]);
    [None] for a value that cannot be hashed. *)
Variable key_of : pyval -> option K.

Record session : Type := {
  url_input : pystr;
  videos_to_process : list video;
  download_status : gmap K job
}.

(** [st.session_state] as the three [if ... not in st.session_state]
    statements leave it on the first run. *)
Definition initial_session : session :=
  {| url_input := []; videos_to_process := []; download_status := ∅ |}.

(** What one run of the script is given: the widgets' values and what the
    operating system answers. *)
Record run_world : Type := {
  current_url_input : pystr;       (* the text input *)
  clicked : pystr -> bool;         (* st.button(..., key=k) *)
  fetch_tool : communicate_result; (* the tool, asked for metadata *)
  dl : dl_world;                   (* the tool, asked to download *)
  exists_after : pystr -> bool;    (* os.path.exists once download returned *)
  exists_shown : pystr -> bool;    (* os.path.exists when a row is drawn *)
  open_error : pystr -> bool;      (* open(path, "rb") raises *)
  clean_dir_exists : bool;         (* os.path.exists(DOWNLOAD_DIR), sidebar *)
  listdir_error : bool             (* os.listdir(DOWNLOAD_DIR) raises *)
}.

Definition fetch_triggered (w : run_world) (s : session) : bool :=
  clicked w (py "fetch_button")
  || (truthy (current_url_input w)
      && negb (bool_decide (current_url_input w = url_input s))).

(** The [if st.button(Fetch) or ...:] block. *)
Definition fetch_phase (w : run_world) (s : session) : flow session :=
  if fetch_triggered w s then
    let url := current_url_input w in
    let s0 := {| url_input := url; videos_to_process := [];
                 download_status := ∅ |} in
    if negb (truthy url) then Continue s0
    else if is_playlist url then
      match get_playlist_info url (fetch_tool w) with
      | (_, Ok (v :: vs)) =>
          Continue {| url_input := url; videos_to_process := v :: vs;
                      download_status := ∅ |}
      | (_, Ok []) => Continue s0
      | (_, _) => Stop s0
      end
    else
      match get_single_video_info url (fetch_tool w) with
      | (_, Ok (Some video_info)) =>
          Continue {| url_input := url; videos_to_process := [video_info];
                      download_status := ∅ |}
      | (_, Ok None) => Continue s0
      | (_, _) => Stop s0
      end
  else Continue s.

(** [st.session_state.download_status.get(video_id, {status: pending})] *)
Definition status_info (store : gmap K job) (video_id : K) : job :=
  match store !! video_id with
  | Some info => info
  | None => {| j_status := pending; j_path := None |}
  end.

Definition status_of (store : gmap K job) (video_id : K) : status :=
  j_status (status_info store video_id).

Definition start_key (video_id : pyval) (index : nat) : pystr :=
  py "start_dl_" ++ py_format video_id ++ py "_" ++ str_int (Z.of_nat index).

(** The entry written once [download_video_yt_dlp] has returned. *)
Definition download_outcome (w : run_world) (r : option pystr) : job :=
  match r with
  | Some downloaded_file_server_path =>
      if truthy downloaded_file_server_path
         && exists_after w downloaded_file_server_path
      then {| j_status := completed; j_path := Some downloaded_file_server_path |}
      else {| j_status := failed; j_path := Some (py "Server download failed.") |}
  | None => {| j_status := failed; j_path := Some (py "Server download failed.") |}
  end.

(** The [for index, video_data in enumerate(...)] loop: every statement
    that writes [download_status] or can end the run.  What is only drawn
    (titles, captions, the disabled button, the error texts) is left out. *)
Fixpoint display_loop (w : run_world) (url : pystr) (videos : list (nat * video))
    (store : gmap K job) : flow (gmap K job) :=
  match videos with
  | [] => Continue store
  | (index, video_data) :: rest =>
      match key_of (v_id video_data) with
      | None => Stop store
      | Some video_id =>
          match status_of store video_id with
          | pending =>
              if clicked w (start_key (v_id video_data) index)
              then Stop (<[video_id := {| j_status := processing; j_path := None |}]> store)
              else display_loop w url rest store
          | processing =>
              let playlist_idx_for_file :=
                if is_playlist url then default PNone (v_index video_data)
                else PNone in
              match download_video_yt_dlp (dl w) (v_url video_data) DOWNLOAD_DIR
                      playlist_idx_for_file with
              | (_, Ok r) => Stop (<[video_id := download_outcome w r]> store)
              | (_, _) => Stop store
              end
          | completed =>
              match j_path (status_info store video_id) with
              | Some file_path_or_msg =>
                  if truthy file_path_or_msg && exists_shown w file_path_or_msg
                     && open_error w file_path_or_msg
                  then Stop store
                  else display_loop w url rest store
              | None => display_loop w url rest store
              end
          | failed => display_loop w url rest store
          end
      end
  end.

Definition display_phase (w : run_world) (s : session) : flow session :=
  let with_store store :=
    {| url_input := url_input s; videos_to_process := videos_to_process s;
       download_status := store |} in
  match display_loop w (url_input s) (enumerate (videos_to_process s))
          (download_status s) with
  | Continue store => Continue (with_store store)
  | Stop store => Stop (with_store store)
  end.

(** The sidebar button: the statuses are dropped with the files.  The
    deletions themselves sit in a [try]; only the listing can end the run
    before the statuses are dropped. *)
Definition cleanup_phase (w : run_world) (s : session) : session :=
  if clicked w (py "clean_dir") && clean_dir_exists w
     && negb (listdir_error w) then
    {| url_input := url_input s; videos_to_process := videos_to_process s;
       download_status := ∅ |}
  else s.

(** One run of the script, top to bottom. *)
Definition script_run (w : run_world) (s : session) : session :=
  match fetch_phase w s with
  | Stop s1 => s1
  | Continue s1 =>
      match display_phase w s1 with
      | Stop s2 => s2
      | Continue s2 => cleanup_phase w s2
      end
  end.

(** The sessions the script can be in. *)
Inductive reachable : session -> Prop :=
| reach_init : reachable initial_session
| reach_run w s : reachable s -> reachable (script_run w s).

End Session.

(** ** Vocabulary of the properties *)

(** The substring test alone, [("list=" in url)]: what [is_playlist] is
    compared with. *)
Definition substring_test (url : pystr) : bool := contains (py "list=") url.

Section LoopVocabulary.
Context `{PyRuntime}.

(** What the loop of [get_playlist_info] does with one line. *)
Inductive line_fate : Type :=
| Skipped                                  (* an empty line *)
| Appended (video_data : list (pystr * pyval))
| Warned (msg : pystr)                     (* json.JSONDecodeError *)
| Aborted (e : exn).                       (* any other exception *)

Definition fate_of (line : pystr) : line_fate :=
  if truthy line then
    match json_loads line with
    | inl (PDict video_data) => Appended video_data
    | inl v => Aborted (no_attribute_get v)
    | inr (JSONDecodeError e) => Warned e
    | inr e => Aborted e
    end
  else Skipped.

(** A line that cannot end the loop: empty, a JSON object, or not JSON. *)
Definition harmless (line : pystr) : Prop :=
  truthy line = false
  \/ (exists video_data, json_loads line = inl (PDict video_data))
  \/ (exists e, json_loads line = inr (JSONDecodeError e)).

(** A line that the loop appends a record for. *)
Definition decodes (line : pystr) : bool :=
  match fate_of line with
  | Appended _ => true
  | _ => false
  end.

(** The records of the lines that decode, each with the index of its line. *)
Fixpoint records (lines : list (nat * pystr)) : list video :=
  match lines with
  | [] => []
  | (i, line) :: rest =>
      match fate_of line with
      | Appended video_data => playlist_record i video_data :: records rest
      | _ => records rest
      end
  end.

Definition parse_warning (line e : pystr) : event :=
  Ui LWarning (py "Could not parse video info line: " ++ line
               ++ py ". Error: " ++ e).

(** The warnings of the lines that are not JSON. *)
Fixpoint warnings (lines : list (nat * pystr)) : list event :=
  match lines with
  | [] => []
  | (_, line) :: rest =>
      match fate_of line with
      | Warned e => parse_warning line e :: warnings rest
      | _ => warnings rest
      end
  end.

(** The first lines of the log of every call of [get_playlist_info]. *)
Definition fetch_head (url : pystr) : list event :=
  [ Ui LInfo (py "Fetching playlist info with command: "
              ++ join (py " ")
                   [py "yt-dlp"; py "--flat-playlist"; py "--print-json"; url]);
    Popen [py "yt-dlp"; py "--flat-playlist"; py "--print-json"; url] ].

(** [ev] is an [st.warning], for counting the warnings of a log. *)
Definition is_warning (ev : event) : bool :=
  match ev with
  | Ui LWarning _ => true
  | _ => false
  end.

(** The first line of the log of every call of [get_single_video_info],
    and the spawn. *)
Definition single_head (url : pystr) : list event :=
  [ Ui LInfo (py "Fetching single video info with command: "
              ++ join (py " ") [py "yt-dlp"; py "--print-json"; url]);
    Popen [py "yt-dlp"; py "--print-json"; url] ].

End LoopVocabulary.

Section DownloadVocabulary.
Context `{PyRuntime}.

(** The directory is there, or [os.makedirs] makes it. *)
Definition directory_ready (w : dl_world) : Prop :=
  dir_exists w = true \/ makedirs_error w = None.

(** What a call that gets as far as the [try] statement logs before it. *)
Definition download_prelude (w : dl_world) (video_url download_path : pystr)
    (playlist_index_for_filename : pyval) : list event :=
  (if dir_exists w then [] else [Makedirs download_path])
  ++ [ Ui LInfo (py "Attempting to download: " ++ video_url);
       Ui LCaption (py "yt-dlp command: "
                    ++ join (py " ")
                         (download_command video_url download_path
                            playlist_index_for_filename)) ].

(** The captured output as the two failure branches show it: each
    stream's kept lines joined by newlines, when there are any. *)
Definition diagnostics (stdout_lines stderr_lines : list pystr) : list event :=
  (if truthy (join [NL] stdout_lines)
   then [Ui LInfo (py "yt-dlp stdout:" ++ [NL] ++ join [NL] stdout_lines)]
   else [])
  ++ (if truthy (join [NL] stderr_lines)
      then [Ui LWarning (py "yt-dlp stderr:" ++ [NL] ++ join [NL] stderr_lines)]
      else []).

(** The ways the [try] statement of [download_video_yt_dlp] can go, each
    with what it logs after the spawn and how the call ends. *)
Inductive attempt_case (w : dl_world) (video_url : pystr)
  : list event -> result (option pystr) -> Prop :=
| ac_popen_fails msg :
    popen_error w = Some msg ->
    attempt_case w video_url
      [Ui LError (py "An unexpected error occurred during download: " ++ msg)]
      (Ok None)
| ac_stdout_fails msg :
    popen_error w = None -> proc_stdout w = ReadFails msg ->
    attempt_case w video_url
      [Ui LError (py "An unexpected error occurred during download: " ++ msg)]
      (Ok None)
| ac_stdout_open :
    popen_error w = None -> proc_stdout w = NeverEnds ->
    attempt_case w video_url [] Blocked
| ac_stderr_fails out msg :
    popen_error w = None -> proc_stdout w = Text out ->
    proc_stderr w = ReadFails msg ->
    attempt_case w video_url
      [Ui LError (py "An unexpected error occurred during download: " ++ msg)]
      (Ok None)
| ac_stderr_open out :
    popen_error w = None -> proc_stdout w = Text out ->
    proc_stderr w = NeverEnds ->
    attempt_case w video_url [] Blocked
| ac_timeout out err running :
    popen_error w = None -> proc_stdout w = Text out ->
    proc_stderr w = Text err -> proc_wait w = WaitTimeout running ->
    attempt_case w video_url
      (Ui LError (py "Download timed out for " ++ video_url
                  ++ py ". The video might be too large or network slow.")
       :: (if running
           then [Kill; Ui LWarning (py "yt-dlp process was killed due to timeout.")]
           else []))
      (Ok None)
| ac_success out err :
    popen_error w = None -> proc_stdout w = Text out ->
    proc_stderr w = Text err -> proc_wait w = Exited 0 ->
    kept_lines out <> [] ->
    file_exists w (last_line (kept_lines out)) = true ->
    attempt_case w video_url
      [Ui LSuccess (py "Server download complete: "
                    ++ os_path_basename (last_line (kept_lines out)))]
      (Ok (Some (last_line (kept_lines out))))
| ac_file_missing out err :
    popen_error w = None -> proc_stdout w = Text out ->
    proc_stderr w = Text err -> proc_wait w = Exited 0 ->
    kept_lines out <> [] ->
    file_exists w (last_line (kept_lines out)) = false ->
    attempt_case w video_url
      (Ui LError (py "yt-dlp reported success, but file not found: "
                  ++ last_line (kept_lines out))
       :: diagnostics (kept_lines out) (kept_lines err))
      (Ok None)
| ac_exit_failed out err rc :
    popen_error w = None -> proc_stdout w = Text out ->
    proc_stderr w = Text err -> proc_wait w = Exited rc ->
    rc <> 0%Z \/ kept_lines out = [] ->
    attempt_case w video_url
      (Ui LError (py "Download failed for " ++ video_url
                  ++ py " (yt-dlp exit code: " ++ str_int rc ++ py ").")
       :: diagnostics (kept_lines out) (kept_lines err))
      (Ok None).


End DownloadVocabulary.

(** The edges of the job state machine. *)
Inductive advance : status -> status -> Prop :=
| adv_start : advance pending processing
| adv_completed : advance processing completed
| adv_failed : advance processing failed.

Section SessionVocabulary.
Context `{PyRuntime} {K : Type} `{Countable K}.
Variable key_of : pyval -> option K.

(** The entries of the store: none is pending, and each belongs to a video
    of the working set. *)
Definition entries_are_live (s : session (K:=K)) : Prop :=
  forall k j,
    download_status s !! k = Some j ->
    j_status j <> pending
    /\ exists v, v ∈ videos_to_process s /\ key_of (v_id v) = Some k.

End SessionVocabulary.

(** What one step of the script may do to the status of one video. *)
Definition stays_or_advances (a b : status) : Prop := a = b \/ advance a b.

(** The only entry a failed download leaves. *)
Definition failed_job : job :=
  {| j_status := failed; j_path := Some (py "Server download failed.") |}.

(** ** A runtime for the examples *)

(** A literal in which the apostrophe stands for the double quote. *)
Definition pyq (s : string) : pystr :=
  (fun c => if (c =? 39)%N then 34%N else c) <$> py s.

(** [json.loads] on the documents the examples feed it; any other text of
    the examples is not JSON from its first character on. *)
Definition example_documents : list (pystr * pyval) :=
  [ (py "{}", PDict []);
    (pyq "{'id': 'abc123', 'title': 'Test'}",
     PDict [(py "id", PStr (py "abc123")); (py "title", PStr (py "Test"))]);
    (pyq "{'id': 'v1', 'title': 'One', 'playlist_index': 1}",
     PDict [(py "id", PStr (py "v1")); (py "title", PStr (py "One"));
            (py "playlist_index", PInt 1)]);
    (pyq "{'title': 'Two'}", PDict [(py "title", PStr (py "Two"))]);
    (py "5", PInt 5) ].

Fixpoint tabulated (docs : list (pystr * pyval)) (s : pystr) : pyval + exn :=
  match docs with
  | [] => inr (JSONDecodeError (py "Expecting value: line 1 column 1 (char 0)"))
  | (doc, v) :: rest => if decide (s = doc) then inl v else tabulated rest s
  end.

Definition example_runtime : PyRuntime :=
  {| json_loads := tabulated example_documents;
     repr_container := fun v => match v with PList [] => py "[]" | _ => py "{}" end |}.

(** Four lines: a record with its own index, an empty line, a line that is
    not JSON, and a record without index or id. *)
Definition four_lines : pystr :=
  pyq "{'id': 'v1', 'title': 'One', 'playlist_index': 1}" ++ [NL]
  ++ [NL] ++ py "not json" ++ [NL] ++ pyq "{'title': 'Two'}".

(** Three lines, the second of which is not JSON. *)
Definition three_lines : pystr :=
  join [NL] [py "{}"; py "not json"; pyq "{'title': 'Two'}"].

(** The tool prints the file name and an empty line, and exits with 0. *)
Definition world_blank_tail : dl_world :=
  {| dir_exists := true; makedirs_error := None; popen_error := None;
     proc_stdout := Text (py "yt_dlp_downloads/Foo.mp4" ++ [NL] ++ [NL]);
     proc_stderr := Text [];
     proc_wait := Exited 0;
     file_exists := fun p => bool_decide (p = py "yt_dlp_downloads/Foo.mp4") |}.

(** The tool closes its pipes after a line on each and is still running
    when the wait gives up. *)
Definition world_timeout : dl_world :=
  {| dir_exists := true; makedirs_error := None; popen_error := None;
     proc_stdout := Text (py "[download] 50%" ++ [NL]);
     proc_stderr := Text (py "WARNING: slow" ++ [NL]);
     proc_wait := WaitTimeout true;
     file_exists := fun _ => false |}.

(** The tool prints the name of an intermediate file, then the final
    file name between blanks, then an empty line, and exits with 0; both
    files are on disk. *)
Definition world_auxiliary_lines : dl_world :=
  {| dir_exists := true; makedirs_error := None; popen_error := None;
     proc_stdout := Text (py "yt_dlp_downloads/Foo.f137.mp4" ++ [NL]
                          ++ py "  yt_dlp_downloads/Foo.mp4  " ++ [NL] ++ [NL]);
     proc_stderr := Text [];
     proc_wait := Exited 0;
     file_exists := fun p => bool_decide (p = py "yt_dlp_downloads/Foo.f137.mp4")
                             || bool_decide (p = py "yt_dlp_downloads/Foo.mp4") |}.

(** The tool prints an error and exits with 1. *)
Definition world_exit_1 : dl_world :=
  {| dir_exists := true; makedirs_error := None; popen_error := None;
     proc_stdout := Text [];
     proc_stderr := Text (py "ERROR: Video unavailable" ++ [NL]);
     proc_wait := Exited 1;
     file_exists := fun _ => false |}.


(** The tool never closes its stdout. *)
Definition world_open_pipe : dl_world :=
  {| dir_exists := true; makedirs_error := None; popen_error := None;
     proc_stdout := NeverEnds; proc_stderr := Text [];
     proc_wait := WaitTimeout true;
     file_exists := fun _ => false |}.

Definition single_url : pystr := py "https://youtu.be/abc123".

(** A run in which the text input holds [single_url], no button is
    clicked and the tool, asked for metadata, prints one object. *)
Definition run_with (d : dl_world) : run_world :=
  {| current_url_input := single_url;
     clicked := fun _ => false;
     fetch_tool := CommDone 0 (pyq "{'id': 'abc123', 'title': 'Test'}") [];
     dl := d;
     exists_after := file_exists d;
     exists_shown := file_exists d;
     open_error := fun _ => false;
     clean_dir_exists := true;
     listdir_error := false |}.

Definition single_video : video :=
  {| v_id := PStr (py "abc123"); v_title := PStr (py "Test");
     v_url := single_url; v_index := None |}.

(** The session after the download of [single_video] was started. *)
Definition processing_session : session (K:=option pystr) :=
  {| url_input := single_url;
     videos_to_process := [single_video];
     download_status :=
       {[ Some (py "abc123") := {| j_status := processing; j_path := None |} ]} |}.

(** The tool is not installed: the spawn raises. *)
Definition world_popen_fails : dl_world :=
  {| dir_exists := true; makedirs_error := None;
     popen_error := Some (py "[Errno 2] No such file or directory: 'yt-dlp'");
     proc_stdout := Text []; proc_stderr := Text [];
     proc_wait := Exited 0;
     file_exists := fun _ => false |}.

(** The tool prints a file name and exits with 0, but no such file is
    there. *)
Definition world_missing_file : dl_world :=
  {| dir_exists := true; makedirs_error := None; popen_error := None;
     proc_stdout := Text (py "yt_dlp_downloads/Foo.mp4" ++ [NL]);
     proc_stderr := Text [];
     proc_wait := Exited 0;
     file_exists := fun _ => false |}.

(** A run in which the Start button of the first video, [abc123], is
    clicked. *)
Definition run_start_with (d : dl_world) : run_world :=
  {| current_url_input := single_url;
     clicked := fun key => bool_decide (key = py "start_dl_abc123_0");
     fetch_tool := CommTimeout;
     dl := d;
     exists_after := file_exists d;
     exists_shown := file_exists d;
     open_error := fun _ => false;
     clean_dir_exists := true;
     listdir_error := false |}.

(** A run in which the sidebar button that cleans the directory is
    clicked. *)
Definition run_clean : run_world :=
  {| current_url_input := single_url;
     clicked := fun key => bool_decide (key = py "clean_dir");
     fetch_tool := CommTimeout;
     dl := world_exit_1;
     exists_after := fun _ => false;
     exists_shown := fun _ => false;
     open_error := fun _ => false;
     clean_dir_exists := true;
     listdir_error := false |}.

(** A run in which Fetch is clicked, with the given text in the input,
    and the tool does not answer in time. *)
Definition run_fetch_timeout (text : pystr) : run_world :=
  {| current_url_input := text;
     clicked := fun key => bool_decide (key = py "fetch_button");
     fetch_tool := CommTimeout;
     dl := world_exit_1;
     exists_after := fun _ => false;
     exists_shown := fun _ => false;
     open_error := fun _ => false;
     clean_dir_exists := true;
     listdir_error := false |}.

(** Dict keys of the examples: [None] and strings, which are their own
    identity; the examples use no other key. *)
Definition example_key_of (v : pyval) : option (option pystr) :=
  match v with
  | PNone => Some None
  | PStr s => Some (Some s)
  | _ => None
  end.

(** * Properties *)

(** ** Strings *)

Lemma startswith_spec (p s : pystr) :
  startswith p s = true <-> exists q, s = p ++ q.
Proof.
  revert s. induction p as [|a p IH]; intros s; simpl.
  - split; [intros _; by exists s | done].
  - destruct s as [|b s]; simpl.
    + split; [done | intros [q Hq]; discriminate].
    + rewrite andb_true_iff, N.eqb_eq, IH. split.
      * intros [-> [q ->]]. by exists q.
      * intros [q Hq]. injection Hq as -> ->. eauto.
Qed.

(** The [in] operator is the substring relation. *)
Lemma contains_spec (needle hay : pystr) :
  contains needle hay = true <-> exists a b, hay = a ++ needle ++ b.
Proof.
  induction hay as [|c t IH]; simpl; rewrite orb_true_iff, startswith_spec.
  - split.
    + intros [[q Hq]|?]; [|done]. exists [], q. done.
    + intros (a & b & Hab). left.
      destruct a; [|discriminate]. simpl in Hab. eauto.
  - rewrite IH. split.
    + intros [[q Hq]|(a & b & ->)].
      * exists [], q. done.
      * exists (c :: a), b. done.
    + intros (a & b & Hab). destruct a as [|x a]; simpl in Hab.
      * left. eauto.
      * right. injection Hab as -> ->. eauto.
Qed.

Lemma split_nil (sep : N) : split sep [] = [[]].
Proof. reflexivity. Qed.


(** ** The matcher agrees with the meaning of patterns *)

Module ReFacts.
Import Re.

Lemma matches_seq_inv r1 r2 s :
  matches (Seq r1 r2) s ->
  exists s1 s2, s = s1 ++ s2 /\ matches r1 s1 /\ matches r2 s2.
Proof. inversion 1; subst; eauto. Qed.

Lemma matches_lit l s : matches (Lit l) s -> s = l.
Proof.
  revert s. induction l as [|c l IH]; simpl; intros s Hm.
  - by inversion Hm.
  - apply matches_seq_inv in Hm as (s1 & s2 & -> & H1 & H2).
    inversion H1; subst. simpl. f_equal. by apply IH.
Qed.

Lemma nullable_spec r : nullable r = true <-> matches r [].
Proof.
  split.
  - induction r; simpl; intros Hn; try discriminate.
    + constructor.
    + apply andb_true_iff in Hn as [? ?].
      apply (m_seq _ _ [] []); auto.
    + apply orb_true_iff in Hn as [?|?]; [apply m_alt_l | apply m_alt_r]; auto.
    + constructor.
  - induction r; simpl; intros Hm; try done; inversion Hm; subst.
    + match goal with E : _ ++ _ = [] |- _ => apply app_eq_nil in E as [-> ->] end.
      apply andb_true_iff; auto.
    + apply orb_true_iff; auto.
    + apply orb_true_iff; auto.
Qed.

Lemma deriv_sound c r s : matches (deriv c r) s -> matches r (c :: s).
Proof.
  revert s. induction r as [| |d|ranges|r1 IH1 r2 IH2|r1 IH1 r2 IH2|r IH];
    simpl; intros s Hm.
  - inversion Hm.
  - inversion Hm.
  - destruct (c =? d)%N eqn:E; inversion Hm; subst.
    apply N.eqb_eq in E as ->. constructor.
  - destruct (in_ranges ranges c) eqn:E; inversion Hm; subst. by constructor.
  - destruct (nullable r1) eqn:E.
    + inversion Hm as [| | | |? ? ? Hl|? ? ? Hr| |]; subst.
      * apply matches_seq_inv in Hl as (s1 & s2 & -> & H1 & H2).
        apply (m_seq _ _ (c :: s1) s2); auto.
      * apply (m_seq _ _ [] (c :: s)); [by apply nullable_spec | auto].
    + apply matches_seq_inv in Hm as (s1 & s2 & -> & H1 & H2).
      apply (m_seq _ _ (c :: s1) s2); auto.
  - inversion Hm; subst; [apply m_alt_l | apply m_alt_r]; auto.
  - apply matches_seq_inv in Hm as (s1 & s2 & -> & H1 & H2).
    apply (m_star_app _ (c :: s1) s2); auto.
Qed.

Lemma deriv_complete c r s : matches r (c :: s) -> matches (deriv c r) s.
Proof.
  intros Hm. remember (c :: s) as s0 eqn:Es. revert s Es.
  induction Hm as [|d|ranges d Hd|r1 r2 s1 s2 H1 IH1 H2 IH2|r1 r2 s0 H1 IH1
                  |r1 r2 s0 H2 IH2|r|r s1 s2 H1 IH1 H2 IH2];
    intros s Es; simpl.
  - discriminate.
  - injection Es as -> <-. rewrite N.eqb_refl. constructor.
  - injection Es as -> <-. rewrite Hd. constructor.
  - destruct s1 as [|x s1]; simpl in Es.
    + subst s2. apply nullable_spec in H1. rewrite H1. apply m_alt_r. by apply IH2.
    + injection Es as -> <-.
      destruct (nullable r1); [apply m_alt_l|]; apply m_seq; auto.
  - apply m_alt_l; auto.
  - apply m_alt_r; auto.
  - discriminate.
  - destruct s1 as [|x s1]; simpl in Es.
    + by apply IH2.
    + injection Es as -> <-. apply m_seq; auto.
Qed.

Lemma match_prefix_spec r s :
  match_prefix r s = true <-> exists p q, s = p ++ q /\ matches r p.
Proof.
  revert r. induction s as [|c t IH]; intros r; simpl; rewrite orb_true_iff.
  - rewrite nullable_spec. split.
    + intros [?|?]; [|done]. by exists [], [].
    + intros (p & q & Hpq & Hm). symmetry in Hpq.
      apply app_eq_nil in Hpq as [-> _]. by left.
  - rewrite nullable_spec, IH. split.
    + intros [?|(p & q & -> & Hm)].
      * by exists [], (c :: t).
      * exists (c :: p), q. split; [done | by apply deriv_sound].
    + intros (p & q & Hpq & Hm). destruct p as [|x p]; simpl in Hpq.
      * by left.
      * injection Hpq as -> ->. right. exists p, q.
        split; [done | by apply deriv_complete].
Qed.

(** [search] finds exactly the strings with a matching substring. *)
Lemma search_spec r s :
  search r s = true <-> exists a p q, s = a ++ p ++ q /\ matches r p.
Proof.
  induction s as [|c t IH]; cbn [search]; rewrite orb_true_iff, match_prefix_spec.
  - split.
    + intros [(p & q & ? & ?)|?]; [|done]. by exists [], p, q.
    + intros (a & p & q & Hs & Hm). left.
      destruct a; [|discriminate]. simpl in Hs. eauto.
  - rewrite IH. split.
    + intros [(p & q & ? & ?)|(a & p & q & -> & ?)].
      * by exists [], p, q.
      * by exists (c :: a), p, q.
    + intros (a & p & q & Hs & Hm). destruct a as [|x a]; simpl in Hs.
      * left. eauto.
      * injection Hs as -> ->. right. eauto.
Qed.

End ReFacts.

(** ** C8, C9: the URL classifier *)

Section Classifier.
Import Re ReFacts.

(** Whatever either pattern matches has [list=] inside it. *)
Lemma playlist_pattern_needs_list pattern p :
  pattern ∈ playlist_patterns ->
  matches pattern p ->
  exists x y, p = x ++ py "list=" ++ y.
Proof.
  unfold playlist_patterns. intros Hin Hm.
  apply elem_of_cons in Hin as [->|Hin];
    [|apply elem_of_cons in Hin as [->|Hin]; [|by apply elem_of_nil in Hin]].
  - apply matches_seq_inv in Hm as (s1 & t1 & -> & _ & Hm).
    apply matches_seq_inv in Hm as (s2 & t2 & -> & _ & Hm).
    apply matches_seq_inv in Hm as (s3 & s4 & -> & Hl & _).
    apply matches_lit in Hl as ->.
    exists (s1 ++ s2 ++ py "youtube.com/playlist?"), s4.
    change (py "youtube.com/playlist?list=")
      with (py "youtube.com/playlist?" ++ py "list=").
    by rewrite <- !app_assoc.
  - apply matches_seq_inv in Hm as (s1 & t1 & -> & _ & Hm).
    apply matches_seq_inv in Hm as (s2 & t2 & -> & _ & Hm).
    apply matches_seq_inv in Hm as (s3 & t3 & -> & _ & Hm).
    apply matches_seq_inv in Hm as (s4 & t4 & -> & _ & Hm).
    apply matches_seq_inv in Hm as (s5 & s6 & -> & Hl & _).
    apply matches_lit in Hl as ->.
    exists (s1 ++ s2 ++ s3 ++ s4 ++ py "&"), s6.
    change (py "&list=") with (py "&" ++ py "list=").
    by rewrite <- !app_assoc.
Qed.

Lemma any_pattern_found patterns url :
  any_pattern patterns url = true ->
  exists pattern, pattern ∈ patterns /\ search pattern url = true.
Proof.
  induction patterns as [|r rest IH]; simpl; [done|].
  destruct (search r url) eqn:E.
  - intros _. exists r. split; [apply elem_of_cons; by left | done].
  - intros (r' & ? & ?)%IH. exists r'. split; [apply elem_of_cons; by right | done].
Qed.

(** The regular expressions never find a URL that the fallback rejects. *)
Lemma any_pattern_implies_substring url :
  any_pattern playlist_patterns url = true ->
  contains (py "list=") url = true.
Proof.
  intros (pattern & Hin & Hs)%any_pattern_found.
  apply search_spec in Hs as (a & p & q & -> & Hm).
  destruct (playlist_pattern_needs_list _ _ Hin Hm) as (x & y & ->).
  apply contains_spec. exists (a ++ x), (y ++ q).
  by rewrite <- !app_assoc.
Qed.

(** C9. For every string, [is_playlist url] is the substring test
    [("list=" in url)]: both regular expressions only find strings that
    contain [list=], so the loop over the patterns never changes what the
    fallback returns. *)
Theorem is_playlist_is_substring_test (url : pystr) :
  is_playlist url = substring_test url.
Proof.
  unfold is_playlist, substring_test.
  destruct (any_pattern playlist_patterns url) eqn:E; [|done].
  symmetry. by apply any_pattern_implies_substring.
Qed.

(** C8. The classifier is a total function from strings to booleans (it
    has no failing outcome): it returns true on every URL that has [list=]
    as a substring and false on every other string. *)
Theorem is_playlist_classifies (url : pystr) :
  ((exists a b, url = a ++ py "list=" ++ b) -> is_playlist url = true)
  /\ (~ (exists a b, url = a ++ py "list=" ++ b) -> is_playlist url = false).
Proof.
  unfold is_playlist. split.
  - intros Hsub. apply contains_spec in Hsub.
    by destruct (any_pattern playlist_patterns url).
  - intros Hno. destruct (any_pattern playlist_patterns url) eqn:E.
    + exfalso. apply Hno, contains_spec. by apply any_pattern_implies_substring.
    + apply not_true_is_false. by rewrite contains_spec.
Qed.

(** C8 at two URLs: one with [list=] behind other query parameters, which
    neither regular expression finds, and one without. *)
Lemma is_playlist_classifies_witness :
  is_playlist (py "https://www.youtube.com/watch?v=abc&t=1&list=PL9") = true
  /\ is_playlist (py "https://youtu.be/abc") = false.
Proof.
  split.
  - apply (proj1 (is_playlist_classifies _)).
    exists (py "https://www.youtube.com/watch?v=abc&t=1&"), (py "PL9").
    reflexivity.
  - apply (proj2 (is_playlist_classifies _)).
    intros Hsub. apply contains_spec in Hsub. vm_compute in Hsub. discriminate.
Defined.

End Classifier.

(** ** The metadata fetcher *)

(** The proofs below follow the control flow; they never look inside a
    string. *)
#[local] Opaque py str_int join strip split readlines os_path_join
  os_path_basename.

Section FetcherFacts.
Context `{PyRuntime}.

Lemma enumerate_from_app {A} (i : nat) (l1 l2 : list A) :
  enumerate_from i (l1 ++ l2)
  = enumerate_from i l1 ++ enumerate_from (i + length l1) l2.
Proof.
  revert i. induction l1 as [|x l1 IH]; intros i; simpl.
  - by rewrite Nat.add_0_r.
  - rewrite IH. do 3 f_equal. lia.
Qed.

Lemma records_app l1 l2 : records (l1 ++ l2) = records l1 ++ records l2.
Proof.
  induction l1 as [|[i line] l1 IH]; simpl; [done|].
  destruct (fate_of line); simpl; by rewrite IH.
Qed.

Lemma warnings_app l1 l2 : warnings (l1 ++ l2) = warnings l1 ++ warnings l2.
Proof.
  induction l1 as [|[i line] l1 IH]; simpl; [done|].
  destruct (fate_of line); simpl; by rewrite IH.
Qed.

Lemma harmless_fate line : harmless line <-> forall e, fate_of line <> Aborted e.
Proof.
  unfold harmless, fate_of. split.
  - intros [->|[[d Hd]|[e Hd]]] e'; [done| |]; rewrite Hd; by destruct (truthy line).
  - intros Hf. destruct (truthy line); [|by left]. right.
    destruct (json_loads line) as [v|e].
    + left. destruct v; try (by exfalso; eapply Hf). eauto.
    + right. destruct e; try (by exfalso; eapply Hf). eauto.
Qed.

(** The loop on lines that cannot end it: the records of the lines that
    decode, in order, and one warning for each line that is not JSON. *)
Lemma playlist_loop_harmless lines videos_info :
  Forall (fun il => harmless il.2) lines ->
  playlist_loop lines videos_info
  = (warnings lines, Ok (videos_info ++ records lines)).
Proof.
  revert videos_info.
  induction lines as [|[i line] rest IH]; intros acc Hall; simpl.
  - by rewrite app_nil_r.
  - apply Forall_cons in Hall as [Hh Hall]. simpl in Hh.
    pose proof (proj1 (harmless_fate line) Hh) as Hf. unfold fate_of in Hf |- *.
    destruct (truthy line); [|by apply IH].
    destruct (json_loads line) as [v|e].
    + destruct v; try (by exfalso; eapply Hf).
      rewrite IH by done. by rewrite <- app_assoc.
    + destruct e; try (by exfalso; eapply Hf).
      unfold mbind, io_mbind, io_bind, st_warning, emit. rewrite IH by done.
      done.
Qed.

(** The loop always ends: with the records, or with an exception. *)
Lemma playlist_loop_ends lines videos_info :
  exists log,
    playlist_loop lines videos_info = (log, Ok (videos_info ++ records lines))
    \/ exists e, playlist_loop lines videos_info = (log, Raise e).
Proof.
  revert videos_info.
  induction lines as [|[i line] rest IH]; intros acc; simpl.
  - exists []. left. by rewrite app_nil_r.
  - unfold fate_of. destruct (truthy line); [|apply IH].
    destruct (json_loads line) as [v|e].
    + destruct v; try (eexists; right; eexists; reflexivity).
      destruct (IH (acc ++ [playlist_record i items])) as [log [E|[e E]]];
        exists log; rewrite E; [left | right; eauto].
      by rewrite <- app_assoc.
    + destruct e; try (eexists; right; eexists; reflexivity).
      unfold mbind, io_mbind, io_bind, st_warning, emit.
      destruct (IH acc) as [log [E|[e E]]]; rewrite E; eexists; [left|right]; eauto.
Qed.

Lemma fate_appended line d :
  truthy line = true -> json_loads line = inl (PDict d) ->
  fate_of line = Appended d.
Proof. intros Ht Hl. unfold fate_of. by rewrite Ht, Hl. Qed.

Lemma fate_warned line e :
  truthy line = true -> json_loads line = inr (JSONDecodeError e) ->
  fate_of line = Warned e.
Proof. intros Ht Hl. unfold fate_of. by rewrite Ht, Hl. Qed.

Lemma Forall_enumerate_from (P : pystr -> Prop) i lines :
  Forall P lines -> Forall (fun il => P il.2) (enumerate_from i lines).
Proof.
  intros Hall. revert i. induction Hall; intros i; simpl; constructor; auto.
Qed.

Lemma records_decoded i lines ds :
  Forall2 (fun l d => truthy l = true /\ json_loads l = inl (PDict d)) lines ds ->
  records (enumerate_from i lines) = imap (fun j d => playlist_record (i + j) d) ds.
Proof.
  intros Hall. revert i.
  induction Hall as [|l d lines ds [Ht Hl] _ IH]; intros i; simpl; [done|].
  unfold fate_of. rewrite Ht, Hl, Nat.add_0_r. f_equal.
  rewrite IH. apply imap_ext. intros j x _. simpl. f_equal. lia.
Qed.

Lemma decoded_harmless lines ds :
  Forall2 (fun l d => truthy l = true /\ json_loads l = inl (PDict d)) lines ds ->
  Forall harmless lines.
Proof.
  induction 1 as [|l d lines ds [Ht Hl] _ IH]; constructor; [|done].
  right. left. eauto.
Qed.

Lemma length_records i lines :
  length (records (enumerate_from i lines)) = length (List.filter decodes lines).
Proof.
  revert i. induction lines as [|l lines IH]; intros i; simpl; [done|].
  unfold decodes. destruct (fate_of l); simpl; by rewrite IH.
Qed.

Lemma elem_of_records v i lines :
  v ∈ records (enumerate_from i lines) ->
  exists j line d,
    lines !! j = Some line /\ truthy line = true
    /\ json_loads line = inl (PDict d) /\ v = playlist_record (i + j) d.
Proof.
  revert i. induction lines as [|l lines IH]; intros i; simpl.
  - by intros ?%elem_of_nil.
  - assert (Hrest : v ∈ records (enumerate_from (S i) lines) ->
      exists j line d, (l :: lines) !! j = Some line /\ truthy line = true
        /\ json_loads line = inl (PDict d) /\ v = playlist_record (i + j) d).
    { intros (j & line & d & ? & ? & ? & ->)%IH. exists (S j), line, d.
      repeat split; try done. f_equal. lia. }
    unfold fate_of. destruct (truthy l) eqn:Ht; [|done].
    destruct (json_loads l) as [[]|[]] eqn:Hl; try done.
    intros [->|?]%elem_of_cons; [|by apply Hrest].
    exists 0, l, items. rewrite Nat.add_0_r. done.
Qed.

Lemma get_playlist_info_harmless url out err :
  truthy (strip out) = true ->
  Forall harmless (split NL (strip out)) ->
  get_playlist_info url (CommDone 0 out err)
  = (fetch_head url ++ warnings (enumerate (split NL (strip out))),
     Ok (records (enumerate (split NL (strip out))))).
Proof.
  intros Hne Hall. unfold get_playlist_info, communicate.
  simpl. rewrite Hne. simpl.
  rewrite playlist_loop_harmless by by apply Forall_enumerate_from.
  done.
Qed.

(** Whatever the lines are, the call returns the records of all of them
    or, when a line ended the loop, none. *)
Lemma get_playlist_info_records url out err :
  truthy (strip out) = true ->
  exists log,
    get_playlist_info url (CommDone 0 out err)
    = (log, Ok (records (enumerate (split NL (strip out)))))
    \/ get_playlist_info url (CommDone 0 out err) = (log, Ok []).
Proof.
  intros Hne. unfold get_playlist_info, communicate. simpl. rewrite Hne. simpl.
  destruct (playlist_loop_ends (enumerate (split NL (strip out))) [])
    as [log [E|[e E]]]; rewrite E; simpl.
  - eexists. by left.
  - destruct e; simpl; eexists; by right.
Qed.

Lemma nonempty_line_nonempty_output out pre line post :
  split NL (strip out) = pre ++ line :: post ->
  truthy line = true ->
  truthy (strip out) = true.
Proof.
  intros Hs Ht. destruct (strip out); [|done].
  rewrite split_nil in Hs. destruct pre as [|? [|]]; try discriminate.
  injection Hs as <- _. discriminate.
Qed.

(** The loop stops at the first line that raises, with the warnings of the
    lines before it. *)
Lemma playlist_loop_aborts i pre line post e videos_info :
  Forall harmless pre ->
  fate_of line = Aborted e ->
  playlist_loop (enumerate_from i (pre ++ line :: post)) videos_info
  = (warnings (enumerate_from i pre), Raise e).
Proof.
  intros Hpre Hline. revert i videos_info.
  induction Hpre as [|l pre Hl _ IH]; intros i acc; simpl.
  - unfold fate_of in Hline. destruct (truthy line); [|done].
    destruct (json_loads line) as [v|e'].
    + destruct v; first [done | by injection Hline as <-].
    + destruct e'; first [done | by injection Hline as <-].
  - pose proof (proj1 (harmless_fate l) Hl) as Hf. unfold fate_of in Hf |- *.
    destruct (truthy l); [|apply IH].
    destruct (json_loads l) as [v|e'].
    + destruct v; try (by exfalso; eapply Hf). apply IH.
    + destruct e'; try (by exfalso; eapply Hf).
      unfold mbind, io_mbind, io_bind, st_warning, emit. by rewrite IH.
Qed.

(** The call itself always returns a list. *)
Lemma get_playlist_info_returns url tool :
  exists log videos, get_playlist_info url tool = (log, Ok videos).
Proof.
  destruct tool as [rc out err| |msg].
  - destruct (decide (rc = 0%Z)) as [->|Hrc].
    + destruct (truthy (strip out)) eqn:Hne.
      * destruct (get_playlist_info_records url out err Hne) as [log [E|E]];
          rewrite E; eauto.
      * unfold get_playlist_info, communicate. simpl. rewrite Hne. simpl. eauto.
    + unfold get_playlist_info, communicate. simpl.
      apply Z.eqb_neq in Hrc. rewrite Hrc. simpl.
      unfold when_truthy. destruct (truthy err), (truthy out); simpl; eauto.
  - unfold get_playlist_info, communicate. simpl. eauto.
  - unfold get_playlist_info, communicate. simpl. eauto.
Qed.

Lemma get_single_video_info_returns url tool :
  exists log r, get_single_video_info url tool = (log, Ok r).
Proof.
  unfold get_single_video_info, communicate, when_truthy.
  destruct tool as [rc out err| |msg]; simpl; eauto.
  destruct (rc =? 0)%Z; simpl.
  - destruct (truthy (strip out)); simpl; eauto.
    destruct (json_loads out) as [[]|[]]; simpl; eauto.
  - destruct (truthy err), (truthy out); simpl; eauto.
Qed.

(** A line that decodes to an object, among harmless lines, has its
    record in the result. *)
Lemma decoded_line_is_returned url out err pre line post d :
  split NL (strip out) = pre ++ line :: post ->
  truthy line = true ->
  json_loads line = inl (PDict d) ->
  Forall harmless (pre ++ post) ->
  exists videos,
    snd (get_playlist_info url (CommDone 0 out err)) = Ok videos
    /\ playlist_record (length pre) d ∈ videos.
Proof.
  intros Hs Ht Hl Hall.
  pose proof (nonempty_line_nonempty_output _ _ _ _ Hs Ht) as Hne.
  assert (Hlines : Forall harmless (split NL (strip out))).
  { rewrite Hs. apply Forall_app in Hall as [Hpre Hpost].
    apply Forall_app. split; [done|]. constructor; [|done].
    right. left. eauto. }
  rewrite (get_playlist_info_harmless _ _ _ Hne Hlines). simpl.
  unfold enumerate. rewrite Hs, enumerate_from_app, records_app. simpl.
  rewrite (fate_appended _ _ Ht Hl).
  eexists. split; [done|]. set_solver.
Qed.

(** C1, amended. A line that decodes to an object without a
    [playlist_index] (absent or null) gets the ordinal 1 + the number of
    ALL lines before it in the stripped output, empty and undecodable ones
    included: its line number.  That ordinal is the record's
    [filename_playlist_index] and the number in its default title
    [Untitled Video <ordinal>]; the record stands in the result after the
    records of the lines before it that decode.  (The other lines are
    taken to be harmless: a line that is JSON but no object ends the loop
    and the call returns no record at all.) *)
Theorem synthesized_ordinal_is_line_number url out err pre line post d :
  split NL (strip out) = pre ++ line :: post ->
  truthy line = true ->
  json_loads line = inl (PDict d) ->
  dict_get d (py "playlist_index") PNone = PNone ->
  Forall harmless (pre ++ post) ->
  let ordinal := (Z.of_nat (length pre) + 1)%Z in
  let v := playlist_record (length pre) d in
  exists before after,
    snd (get_playlist_info url (CommDone 0 out err)) = Ok (before ++ v :: after)
    /\ length before = length (List.filter decodes pre)
    /\ v_index v = Some (PInt ordinal)
    /\ v_title v
       = dict_get d (py "title") (PStr (py "Untitled Video " ++ str_int ordinal)).
Proof.
  intros Hs Ht Hl Hidx Hall ordinal v.
  pose proof (nonempty_line_nonempty_output _ _ _ _ Hs Ht) as Hne.
  assert (Hlines : Forall harmless (split NL (strip out))).
  { rewrite Hs. apply Forall_app in Hall as [Hpre Hpost].
    apply Forall_app. split; [done|]. constructor; [|done].
    right. left. eauto. }
  rewrite (get_playlist_info_harmless _ _ _ Hne Hlines). simpl.
  unfold enumerate. rewrite Hs, enumerate_from_app, records_app. simpl.
  rewrite (fate_appended _ _ Ht Hl).
  eexists _, _. split; [reflexivity|]. split; [apply length_records|].
  subst v ordinal. unfold playlist_record, naming_index. simpl.
  by rewrite Hidx.
Qed.

(** C5, amended. [get_playlist_info] always returns a list: no exception
    and no endless wait reach its caller.  On a non-zero exit code the list
    is empty and the exit code, stderr and stdout are shown; on empty
    output the list is empty and a warning is shown.  A single line on
    which the decoder raises [JSONDecodeError], among lines that decode,
    costs a warning and nothing else: every other record is returned, with
    the index of its own line.  A line that is JSON but no object, or on
    which the decoder raises another exception, is not skipped: after the
    warnings of the lines before it one error is shown and the list
    returned is empty. *)
Theorem get_playlist_info_failures url tool :
  (exists log videos, get_playlist_info url tool = (log, Ok videos))
  /\ (forall rc out err,
        tool = CommDone rc out err -> rc <> 0%Z ->
        snd (get_playlist_info url tool) = Ok []
        /\ Ui LError (py "Error fetching playlist info (yt-dlp exited with "
                      ++ str_int rc ++ py "):") ∈ fst (get_playlist_info url tool)
        /\ (truthy err = true ->
            Ui LError (py "stderr: " ++ err) ∈ fst (get_playlist_info url tool))
        /\ (truthy out = true ->
            Ui LWarning (py "stdout: " ++ out) ∈ fst (get_playlist_info url tool)))
  /\ (forall out err,
        tool = CommDone 0 out err -> strip out = [] ->
        snd (get_playlist_info url tool) = Ok []
        /\ Ui LWarning (py "No output from yt-dlp for playlist info. The playlist might be empty or private.")
             ∈ fst (get_playlist_info url tool))
  /\ (forall out err pre line post e dpre dpost,
        tool = CommDone 0 out err ->
        split NL (strip out) = pre ++ line :: post ->
        truthy line = true ->
        json_loads line = inr (JSONDecodeError e) ->
        Forall2 (fun l d => truthy l = true /\ json_loads l = inl (PDict d)) pre dpre ->
        Forall2 (fun l d => truthy l = true /\ json_loads l = inl (PDict d)) post dpost ->
        snd (get_playlist_info url tool)
        = Ok (imap (fun j d => playlist_record j d) dpre
              ++ imap (fun j d => playlist_record (S (length pre) + j) d) dpost)
        /\ parse_warning line e ∈ fst (get_playlist_info url tool))
  /\ (forall out err pre line post,
        tool = CommDone 0 out err ->
        split NL (strip out) = pre ++ line :: post ->
        Forall harmless pre ->
        truthy line = true ->
        (exists x, json_loads line = inl x /\ forall d, x <> PDict d)
        \/ (exists e, json_loads line = inr e /\ forall msg, e <> JSONDecodeError msg) ->
        exists text,
          get_playlist_info url tool
          = (fetch_head url ++ warnings (enumerate pre) ++ [Ui LError text],
             Ok [])).
Proof.
  split; [|split; [|split; [|split]]].
  - destruct tool as [rc out err| |msg].
    + destruct (decide (rc = 0%Z)) as [->|Hrc].
      * destruct (truthy (strip out)) eqn:Hne.
        -- destruct (get_playlist_info_records url out err Hne) as [log [E|E]];
             rewrite E; eauto.
        -- unfold get_playlist_info, communicate. simpl. rewrite Hne. simpl. eauto.
      * unfold get_playlist_info, communicate. simpl.
        apply Z.eqb_neq in Hrc. rewrite Hrc. simpl.
        unfold when_truthy. destruct (truthy err), (truthy out); simpl; eauto.
    + unfold get_playlist_info, communicate. simpl. eauto.
    + unfold get_playlist_info, communicate. simpl. eauto.
  - intros rc out err -> Hrc. unfold get_playlist_info, communicate. simpl.
    apply Z.eqb_neq in Hrc. rewrite Hrc. simpl. unfold when_truthy.
    destruct (truthy err), (truthy out); simpl;
      (split; [done|]); (split; [set_solver|]); split; intros; set_solver.
  - intros out err -> Hempty. unfold get_playlist_info, communicate. simpl.
    rewrite Hempty. simpl. split; [done | set_solver].
  - intros out err pre line post e dpre dpost -> Hs Ht Hl Hpre Hpost.
    pose proof (nonempty_line_nonempty_output _ _ _ _ Hs Ht) as Hne.
    assert (Hlines : Forall harmless (split NL (strip out))).
    { rewrite Hs. apply Forall_app. split; [by eapply decoded_harmless|].
      constructor; [|by eapply decoded_harmless]. right. right. eauto. }
    rewrite (get_playlist_info_harmless _ _ _ Hne Hlines). simpl.
    unfold enumerate. rewrite Hs, enumerate_from_app, records_app, warnings_app.
    simpl. rewrite (fate_warned _ _ Ht Hl).
    rewrite (records_decoded 0 pre dpre Hpre).
    rewrite (records_decoded (S (length pre)) post dpost Hpost).
    split; [done|]. set_solver.
  - intros out err pre line post -> Hs Hpre Ht Hbad.
    pose proof (nonempty_line_nonempty_output _ _ _ _ Hs Ht) as Hne.
    assert (exists e0, fate_of line = Aborted e0) as [e0 Hfate].
    { unfold fate_of. rewrite Ht.
      destruct Hbad as [(x & -> & Hx)|(e & -> & He)].
      - destruct x; eauto. by destruct (Hx items).
      - destruct e; eauto. by destruct (He msg). }
    unfold get_playlist_info, communicate, fetch_head. simpl. rewrite Hne. simpl.
    unfold enumerate. rewrite Hs.
    rewrite (playlist_loop_aborts 0 pre line post e0 [] Hpre Hfate). simpl.
    destruct e0; simpl; eauto.
Qed.

(** C10. Every record of [get_playlist_info] comes from a line of the
    output that decoded to an object, and its [url] is the text
    [https://www.youtube.com/watch?v=] followed by that object's id as an
    f-string writes it, so [None] when the object has no id; it does not
    depend on the playlist URL that was submitted.  Such records are
    returned: a line that decodes to an object, among harmless lines, has
    its record in the result.  [get_single_video_info], when the tool
    prints one object and exits with 0, returns a record, and the [url] of
    the record it returns is the URL it was called with. *)
Theorem playlist_urls_are_constructed url tool :
  (forall videos v,
      snd (get_playlist_info url tool) = Ok videos -> v ∈ videos ->
      exists out err i line d,
        tool = CommDone 0 out err
        /\ split NL (strip out) !! i = Some line
        /\ json_loads line = inl (PDict d)
        /\ v = playlist_record i d
        /\ v_url v = py "https://www.youtube.com/watch?v="
                     ++ py_format (dict_get d (py "id") PNone)
        /\ (dict_lookup d (py "id") = None ->
            v_url v = py "https://www.youtube.com/watch?v=None"))
  /\ (forall url', snd (get_playlist_info url' tool) = snd (get_playlist_info url tool))
  /\ (forall v, snd (get_single_video_info url tool) = Ok (Some v) -> v_url v = url)
  /\ (forall out err pre line post d,
        tool = CommDone 0 out err ->
        split NL (strip out) = pre ++ line :: post ->
        truthy line = true ->
        json_loads line = inl (PDict d) ->
        Forall harmless (pre ++ post) ->
        exists videos,
          snd (get_playlist_info url tool) = Ok videos
          /\ playlist_record (length pre) d ∈ videos
          /\ v_url (playlist_record (length pre) d)
             = py "https://www.youtube.com/watch?v="
               ++ py_format (dict_get d (py "id") PNone))
  /\ (forall out err d,
        tool = CommDone 0 out err ->
        truthy (strip out) = true ->
        json_loads out = inl (PDict d) ->
        exists v,
          snd (get_single_video_info url tool) = Ok (Some v)
          /\ v_id v = dict_get d (py "id") PNone
          /\ v_url v = url).
Proof.
  split; [|split; [|split; [|split]]].
  - intros videos v Hres Hv.
    destruct tool as [rc out err| |msg];
      [|unfold get_playlist_info, communicate in Hres; simpl in Hres;
        injection Hres as <-; by apply elem_of_nil in Hv ..].
    destruct (decide (rc = 0%Z)) as [->|Hrc].
    + destruct (truthy (strip out)) eqn:Hne.
      * destruct (get_playlist_info_records url out err Hne) as [log [E|E]];
          rewrite E in Hres; simpl in Hres; injection Hres as <-;
          [|by apply elem_of_nil in Hv].
        apply elem_of_records in Hv as (j & line & d & Hj & _ & Hl & ->).
        exists out, err, j, line, d. repeat split; try done.
        intros Hid. unfold playlist_record, dict_get. simpl. rewrite Hid.
        simpl. by vm_compute.
      * unfold get_playlist_info, communicate in Hres. simpl in Hres.
        rewrite Hne in Hres. simpl in Hres. injection Hres as <-.
        by apply elem_of_nil in Hv.
    + unfold get_playlist_info, communicate in Hres. simpl in Hres.
      apply Z.eqb_neq in Hrc. rewrite Hrc in Hres. simpl in Hres.
      unfold when_truthy in Hres.
      destruct (truthy err), (truthy out); simpl in Hres; injection Hres as <-;
        by apply elem_of_nil in Hv.
  - intros url'. destruct tool as [rc out err| |msg]; [|done..].
    destruct (decide (rc = 0%Z)) as [->|Hrc].
    + destruct (truthy (strip out)) eqn:Hne.
      * unfold get_playlist_info, communicate. simpl. rewrite Hne. simpl.
        destruct (playlist_loop (enumerate (split NL (strip out))) [])
          as [log [vs|e|]]; simpl; [done| |done].
        by destruct e.
      * unfold get_playlist_info, communicate. simpl. rewrite Hne. done.
    + unfold get_playlist_info, communicate. simpl.
      apply Z.eqb_neq in Hrc. rewrite Hrc. simpl. unfold when_truthy.
      by destruct (truthy err), (truthy out).
  - intros v. unfold get_single_video_info, communicate.
    destruct tool as [rc out err| |msg]; simpl; [|done..].
    destruct (rc =? 0)%Z; simpl.
    + destruct (truthy (strip out)); simpl; [|done].
      destruct (json_loads out) as [[]|[]]; simpl; try done.
      by intros [= <-].
    + unfold when_truthy. by destruct (truthy err), (truthy out).
  - intros out err pre line post d -> Hs Ht Hl Hall.
    destruct (decoded_line_is_returned url out err pre line post d Hs Ht Hl Hall)
      as (videos & Hres & Hin).
    exists videos. done.
  - intros out err d -> Hne Hl.
    unfold get_single_video_info, communicate. simpl. rewrite Hne, Hl. simpl.
    eexists. done.
Qed.

End FetcherFacts.

(** *** The fetcher on concrete outputs *)

Ltac harmless_lines :=
  repeat first
    [ exact I
    | apply Forall_nil
    | apply Forall_cons; split;
      [ first [ left; vm_compute; reflexivity
              | right; left; eexists; vm_compute; reflexivity
              | right; right; eexists; vm_compute; reflexivity ] | ] ].

(** C1, amended, at [four_lines]: the last line is the fourth, and 4 is
    its ordinal although only one line before it decodes. *)
Lemma synthesized_ordinal_witness :
  exists before after,
    snd (@get_playlist_info example_runtime (py "https://www.youtube.com/playlist?list=PL9")
           (CommDone 0 four_lines []))
    = Ok (before ++ @playlist_record example_runtime 3 [(py "title", PStr (py "Two"))]
            :: after)
    /\ length before = 1
    /\ v_index (@playlist_record example_runtime 3 [(py "title", PStr (py "Two"))])
       = Some (PInt 4)
    /\ v_title (@playlist_record example_runtime 3 [(py "title", PStr (py "Two"))])
       = PStr (py "Two").
Proof.
  apply (@synthesized_ordinal_is_line_number example_runtime
           (py "https://www.youtube.com/playlist?list=PL9") four_lines []
           [pyq "{'id': 'v1', 'title': 'One', 'playlist_index': 1}"; [];
            py "not json"]
           (pyq "{'title': 'Two'}") [] [(py "title", PStr (py "Two"))]).
  - vm_compute. reflexivity.
  - vm_compute. reflexivity.
  - vm_compute. reflexivity.
  - vm_compute. reflexivity.
  - harmless_lines.
Defined.

(** C1 as stated fails: of the three lines [{}], [not json], [{}] the third
    has one valid line before it, which would make its ordinal 2; the
    code gives it 3, in the index and in the title. *)
Lemma ordinal_counts_unparsed_lines :
  let lines := [py "{}"; py "not json"; py "{}"] in
  let out := join [NL] lines in
  let third := @playlist_record example_runtime 2 [] in
  split NL (strip out) = lines
  /\ List.filter (@decodes example_runtime) [py "{}"; py "not json"] = [py "{}"]
  /\ snd (@get_playlist_info example_runtime
            (py "https://www.youtube.com/playlist?list=PL9") (CommDone 0 out []))
     = Ok [@playlist_record example_runtime 0 []; third]
  /\ v_index third = Some (PInt 3)
  /\ v_title third = PStr (py "Untitled Video 3")
  /\ v_index third
     <> Some (PInt (1 + Z.of_nat
                      (length (List.filter (@decodes example_runtime)
                                 [py "{}"; py "not json"])))).
Proof.
  vm_compute. repeat split; discriminate.
Qed.

(** A line that is JSON but no object is not skipped: the [.get] on it
    raises, the outer handler shows the exception and the call returns no
    record, not even the one already read. *)
Lemma non_object_line_ends_the_loop :
  @get_playlist_info example_runtime (py "u")
    (CommDone 0 (join [NL] [py "{}"; py "5"]) [])
  = (fetch_head (py "u")
     ++ [Ui LError (py "An exception occurred while fetching playlist info: 'int' object has no attribute 'get'")],
     Ok []).
Proof. vm_compute. reflexivity. Qed.

(** C5 as stated fails: of the three lines [{}], [5], [{'title': 'Two'}]
    the second parses as JSON but is no object.  It is not skipped and no
    warning is shown: the call returns no record at all, neither the one
    read before it nor the one after it. *)
Lemma non_object_line_is_not_skipped :
  let lines := [py "{}"; py "5"; pyq "{'title': 'Two'}"] in
  let out := join [NL] lines in
  let call := @get_playlist_info example_runtime (py "u") (CommDone 0 out []) in
  split NL (strip out) = lines
  /\ @json_loads example_runtime (py "{}") = inl (PDict [])
  /\ @json_loads example_runtime (py "5") = inl (PInt 5)
  /\ @json_loads example_runtime (pyq "{'title': 'Two'}")
     = inl (PDict [(py "title", PStr (py "Two"))])
  /\ snd call = Ok []
  /\ snd call
     <> Ok [@playlist_record example_runtime 0 [];
            @playlist_record example_runtime 2 [(py "title", PStr (py "Two"))]]
  /\ List.filter (fun ev => match ev with Ui LWarning _ => true | _ => false end)
       (fst call) = [].
Proof.
  vm_compute. repeat split; discriminate.
Qed.

(** C5, amended, at concrete calls: the tool exits with 1; it prints
    nothing; the second of three lines is not JSON; and the second of three
    lines is a number. *)
Lemma get_playlist_info_failures_witness :
  (snd (@get_playlist_info example_runtime (py "u") (CommDone 1 [] (py "ERROR: private")))
   = Ok []
   /\ Ui LError (py "stderr: ERROR: private")
        ∈ fst (@get_playlist_info example_runtime (py "u")
                 (CommDone 1 [] (py "ERROR: private"))))
  /\ snd (@get_playlist_info example_runtime (py "u") (CommDone 0 (py "  ") [])) = Ok []
  /\ snd (@get_playlist_info example_runtime (py "u")
            (CommDone 0 three_lines []))
     = Ok [@playlist_record example_runtime 0 [];
           @playlist_record example_runtime 2 [(py "title", PStr (py "Two"))]]
  /\ exists text,
       @get_playlist_info example_runtime (py "u")
         (CommDone 0 (join [NL] [py "{}"; py "5"; pyq "{'title': 'Two'}"]) [])
       = (fetch_head (py "u")
          ++ @warnings example_runtime (enumerate [py "{}"]) ++ [Ui LError text],
          Ok []).
Proof.
  split; [|split; [|split]].
  - pose proof (proj1 (proj2 (@get_playlist_info_failures example_runtime (py "u")
                  (CommDone 1 [] (py "ERROR: private"))))
                  1%Z [] (py "ERROR: private") eq_refl) as Hfail.
    destruct Hfail as (Hres & _ & Herr & _); [lia|].
    split; [exact Hres | apply Herr; vm_compute; reflexivity].
  - apply (proj1 (proj2 (proj2 (@get_playlist_info_failures example_runtime (py "u")
                                  (CommDone 0 (py "  ") [])))) (py "  ") []);
      [reflexivity | vm_compute; reflexivity].
  - apply (proj1 (proj2 (proj2 (proj2 (@get_playlist_info_failures example_runtime
             (py "u") (CommDone 0 three_lines [])))))
             three_lines [] [py "{}"] (py "not json") [pyq "{'title': 'Two'}"]
             (py "Expecting value: line 1 column 1 (char 0)")
             [[]] [[(py "title", PStr (py "Two"))]]).
    + reflexivity.
    + vm_compute. reflexivity.
    + vm_compute. reflexivity.
    + vm_compute. reflexivity.
    + repeat constructor.
    + repeat constructor.
  - apply (proj2 (proj2 (proj2 (proj2 (@get_playlist_info_failures example_runtime
             (py "u")
             (CommDone 0 (join [NL] [py "{}"; py "5"; pyq "{'title': 'Two'}"]) [])))))
             (join [NL] [py "{}"; py "5"; pyq "{'title': 'Two'}"]) []
             [py "{}"] (py "5") [pyq "{'title': 'Two'}"]).
    + reflexivity.
    + vm_compute. reflexivity.
    + harmless_lines.
    + vm_compute. reflexivity.
    + left. exists (PInt 5). split; [vm_compute; reflexivity | discriminate].
Defined.

(** C10 at a line without id: the url ends in [None]; at a listing of
    one line: its record is returned; and at a single video: a record is
    returned and its url is the one submitted. *)
Lemma playlist_urls_witness :
  (forall v,
      v ∈ [@playlist_record example_runtime 0 []] ->
      v_url v = py "https://www.youtube.com/watch?v=None")
  /\ (forall v,
        snd (@get_single_video_info example_runtime (py "https://youtu.be/abc123")
               (CommDone 0 (pyq "{'id': 'abc123', 'title': 'Test'}") []))
        = Ok (Some v) ->
        v_url v = py "https://youtu.be/abc123")
  /\ (exists videos,
        snd (@get_playlist_info example_runtime
               (py "https://www.youtube.com/playlist?list=PL9")
               (CommDone 0 three_lines []))
        = Ok videos
        /\ @playlist_record example_runtime 2 [(py "title", PStr (py "Two"))] ∈ videos
        /\ v_url (@playlist_record example_runtime 2 [(py "title", PStr (py "Two"))])
           = py "https://www.youtube.com/watch?v="
             ++ @py_format example_runtime
                  (dict_get [(py "title", PStr (py "Two"))] (py "id") PNone))
  /\ (exists v,
        snd (@get_single_video_info example_runtime (py "https://youtu.be/abc123")
               (CommDone 0 (pyq "{'id': 'abc123', 'title': 'Test'}") []))
        = Ok (Some v)
        /\ v_id v = dict_get [(py "id", PStr (py "abc123")); (py "title", PStr (py "Test"))]
                     (py "id") PNone
        /\ v_url v = py "https://youtu.be/abc123").
Proof.
  split; [|split; [|split]].
  - intros v Hv.
    destruct (proj1 (@playlist_urls_are_constructed example_runtime
                       (py "https://www.youtube.com/playlist?list=PL9")
                       (CommDone 0 (py "{}") []))
                [@playlist_record example_runtime 0 []] v)
      as (out & err & i & line & d & Ht & Hi & Hl & Hv' & _ & Hnone);
      [vm_compute; reflexivity | exact Hv |].
    apply Hnone. injection Ht as <- <-.
    vm_compute in Hi. destruct i as [|[|]]; try discriminate.
    injection Hi as <-. vm_compute in Hl. by injection Hl as <-.
  - apply (proj1 (proj2 (proj2 (@playlist_urls_are_constructed example_runtime
                           (py "https://youtu.be/abc123")
                           (CommDone 0 (pyq "{'id': 'abc123', 'title': 'Test'}") []))))).
  - apply (proj1 (proj2 (proj2 (proj2 (@playlist_urls_are_constructed example_runtime
                           (py "https://www.youtube.com/playlist?list=PL9")
                           (CommDone 0 three_lines [])))))
             three_lines [] [py "{}"; py "not json"] (pyq "{'title': 'Two'}") []
             [(py "title", PStr (py "Two"))]).
    + reflexivity.
    + vm_compute. reflexivity.
    + vm_compute. reflexivity.
    + vm_compute. reflexivity.
    + harmless_lines.
  - apply (proj2 (proj2 (proj2 (proj2 (@playlist_urls_are_constructed example_runtime
                           (py "https://youtu.be/abc123")
                           (CommDone 0 (pyq "{'id': 'abc123', 'title': 'Test'}") [])))))
             (pyq "{'id': 'abc123', 'title': 'Test'}") []
             [(py "id", PStr (py "abc123")); (py "title", PStr (py "Test"))]).
    + reflexivity.
    + vm_compute. reflexivity.
    + vm_compute. reflexivity.
Defined.

(** ** The download invoker *)

#[local] Opaque kept_lines.

Section DownloadFacts.
Context `{PyRuntime}.

Ltac run_download :=
  unfold download_video_yt_dlp, ensure_directory, download_body,
    download_handlers, read_lines, when_truthy, download_prelude, diagnostics;
  simpl.

(** A directory that cannot be made ends the call before anything else. *)
Lemma download_unready w url path idx e :
  dir_exists w = false -> makedirs_error w = Some e ->
  download_video_yt_dlp w url path idx
  = ([Makedirs path;
      Ui LError (py "Failed to create download directory " ++ path ++ py ": " ++ e)],
     Ok None).
Proof. intros Hd He. run_download. by rewrite Hd, He. Qed.

Lemma download_ready w url path idx :
  directory_ready w ->
  download_video_yt_dlp w url path idx
  = (download_prelude w url path idx
     ++ fst (try_except (download_body w url (download_command url path idx))
               (download_handlers w url)),
     snd (try_except (download_body w url (download_command url path idx))
            (download_handlers w url))).
Proof.
  intros Hready. unfold download_video_yt_dlp, ensure_directory, download_prelude.
  destruct (try_except _ _) as [log r]. simpl.
  destruct Hready as [Hd|Hm].
  - rewrite Hd. done.
  - rewrite Hm. destruct (dir_exists w); done.
Qed.

(** The subprocess ran to its end and was waited for. *)
Lemma attempt_exited w url command out err rc :
  popen_error w = None -> proc_stdout w = Text out ->
  proc_stderr w = Text err -> proc_wait w = Exited rc ->
  try_except (download_body w url command) (download_handlers w url)
  = if (rc =? 0)%Z && negb (bool_decide (kept_lines out = [])) then
      if file_exists w (last_line (kept_lines out)) then
        ([Popen command;
          Ui LSuccess (py "Server download complete: "
                       ++ os_path_basename (last_line (kept_lines out)))],
         Ok (Some (last_line (kept_lines out))))
      else
        (Popen command
         :: Ui LError (py "yt-dlp reported success, but file not found: "
                       ++ last_line (kept_lines out))
         :: diagnostics (kept_lines out) (kept_lines err),
         Ok None)
    else
      (Popen command
       :: Ui LError (py "Download failed for " ++ url
                     ++ py " (yt-dlp exit code: " ++ str_int rc ++ py ").")
       :: diagnostics (kept_lines out) (kept_lines err),
       Ok None).
Proof.
  intros Hp Ho He Hw. run_download. rewrite Hp, Ho, He, Hw. simpl.
  destruct ((rc =? 0)%Z && negb (bool_decide (kept_lines out = []))); simpl.
  - destruct (file_exists w (last_line (kept_lines out))); simpl; [done|].
    by destruct (truthy (join [NL] (kept_lines out))),
         (truthy (join [NL] (kept_lines err))).
  - by destruct (truthy (join [NL] (kept_lines out))),
         (truthy (join [NL] (kept_lines err))).
Qed.

(** The wait ran out of time. *)
Lemma attempt_timeout w url command out err running :
  popen_error w = None -> proc_stdout w = Text out ->
  proc_stderr w = Text err -> proc_wait w = WaitTimeout running ->
  try_except (download_body w url command) (download_handlers w url)
  = (Popen command
     :: Ui LError (py "Download timed out for " ++ url
                   ++ py ". The video might be too large or network slow.")
     :: (if running
         then [Kill; Ui LWarning (py "yt-dlp process was killed due to timeout.")]
         else []),
     Ok None).
Proof.
  intros Hp Ho He Hw. run_download. rewrite Hp, Ho, He, Hw. simpl.
  by destruct running.
Qed.

(** The spawn or the reading of a pipe raised: the last handler shows the
    exception and nothing else. *)
Lemma attempt_unexpected w url command msg :
  popen_error w = Some msg
  \/ (popen_error w = None /\ proc_stdout w = ReadFails msg)
  \/ (popen_error w = None /\ (exists out, proc_stdout w = Text out)
      /\ proc_stderr w = ReadFails msg) ->
  try_except (download_body w url command) (download_handlers w url)
  = ([Popen command;
      Ui LError (py "An unexpected error occurred during download: " ++ msg)],
     Ok None).
Proof.
  intros [Hp|[[Hp Ho]|(Hp & [out Ho] & He)]]; run_download.
  - by rewrite Hp.
  - by rewrite Hp, Ho.
  - by rewrite Hp, Ho, He.
Qed.

(** Any other way the [try] statement can go: never a path. *)
Lemma attempt_otherwise w url command :
  popen_error w <> None
  \/ (forall out, proc_stdout w <> Text out)
  \/ (forall err, proc_stderr w <> Text err) ->
  snd (try_except (download_body w url command) (download_handlers w url))
  = Ok None
  \/ snd (try_except (download_body w url command) (download_handlers w url))
     = Blocked.
Proof.
  run_download. destruct w as [de me pe so se wt fe]; simpl.
  intros Hcase. destruct pe; simpl; [by left|].
  destruct so; simpl; [|by left|by right].
  destruct se; simpl; [|by left|by right].
  exfalso. destruct Hcase as [?|[Hc|Hc]]; [done|by eapply Hc..].
Qed.



(** C4, amended. The call returns a path exactly when the directory is
    ready, the tool was spawned, both pipes were read to their end, the
    wait returned exit code zero, at least one line of stdout is not blank,
    and the last such line, stripped of surrounding white space, is an
    existing file; that stripped line is the path returned.  When the wait
    returned and one of the three conditions fails, the call returns
    [None] and shows the kept lines of stdout and of stderr, each joined by
    newlines, when there are any.  When the wait ran out of time the call
    returns [None] and shows, after the spawn, the timed-out error and,
    if the process was still running and was killed, the kill warning;
    when the spawn or the reading of a pipe raised, it returns [None] and
    shows the exception; in neither case is the captured output shown. *)
Theorem download_returns_last_kept_line w url path idx :
  (forall p,
      snd (download_video_yt_dlp w url path idx) = Ok (Some p) <->
      directory_ready w /\ popen_error w = None
      /\ exists out err,
          proc_stdout w = Text out /\ proc_stderr w = Text err
          /\ proc_wait w = Exited 0
          /\ kept_lines out <> []
          /\ p = last_line (kept_lines out)
          /\ file_exists w p = true)
  /\ (forall out err rc,
        directory_ready w -> popen_error w = None ->
        proc_stdout w = Text out -> proc_stderr w = Text err ->
        proc_wait w = Exited rc ->
        rc <> 0%Z \/ kept_lines out = []
        \/ file_exists w (last_line (kept_lines out)) = false ->
        snd (download_video_yt_dlp w url path idx) = Ok None
        /\ (truthy (join [NL] (kept_lines out)) = true ->
            Ui LInfo (py "yt-dlp stdout:" ++ [NL] ++ join [NL] (kept_lines out))
              ∈ fst (download_video_yt_dlp w url path idx))
        /\ (truthy (join [NL] (kept_lines err)) = true ->
            Ui LWarning (py "yt-dlp stderr:" ++ [NL] ++ join [NL] (kept_lines err))
              ∈ fst (download_video_yt_dlp w url path idx)))
  /\ (forall out err running,
        directory_ready w -> popen_error w = None ->
        proc_stdout w = Text out -> proc_stderr w = Text err ->
        proc_wait w = WaitTimeout running ->
        download_video_yt_dlp w url path idx
        = (download_prelude w url path idx
           ++ Popen (download_command url path idx)
              :: Ui LError (py "Download timed out for " ++ url
                            ++ py ". The video might be too large or network slow.")
              :: (if running
                  then [Kill;
                        Ui LWarning (py "yt-dlp process was killed due to timeout.")]
                  else []),
           Ok None))
  /\ (forall msg,
        directory_ready w ->
        popen_error w = Some msg
        \/ (popen_error w = None /\ proc_stdout w = ReadFails msg)
        \/ (popen_error w = None /\ (exists out, proc_stdout w = Text out)
            /\ proc_stderr w = ReadFails msg) ->
        download_video_yt_dlp w url path idx
        = (download_prelude w url path idx
           ++ [Popen (download_command url path idx);
               Ui LError (py "An unexpected error occurred during download: "
                          ++ msg)],
           Ok None)).
Proof.
  split; [|split; [|split]].
  - intros p. split.
    + intros Hres.
      assert (Hready : directory_ready w).
      { unfold directory_ready.
        destruct (dir_exists w) eqn:Hd; [by left|].
        destruct (makedirs_error w) eqn:Hm; [|by right].
        by rewrite (download_unready _ _ _ _ _ Hd Hm) in Hres. }
      rewrite (download_ready _ _ _ _ Hready) in Hres. simpl in Hres.
      destruct (popen_error w) as [msg|] eqn:Hp.
      { destruct (attempt_otherwise w url (download_command url path idx))
          as [E|E]; [left; by rewrite Hp | congruence..]. }
      destruct (proc_stdout w) as [out|msg|] eqn:Ho;
        [|destruct (attempt_otherwise w url (download_command url path idx))
            as [E|E]; [right; left; intros ?; by rewrite Ho | congruence..] ..].
      destruct (proc_stderr w) as [err|msg|] eqn:He;
        [|destruct (attempt_otherwise w url (download_command url path idx))
            as [E|E]; [right; right; intros ?; by rewrite He | congruence..] ..].
      destruct (proc_wait w) as [rc|running] eqn:Hw.
      * rewrite (attempt_exited _ _ _ _ _ _ Hp Ho He Hw) in Hres.
        destruct (rc =? 0)%Z eqn:Hrc; simpl in Hres; [|done].
        apply Z.eqb_eq in Hrc as ->.
        case_bool_decide as Hlines; simpl in Hres; [done|].
        destruct (file_exists w (last_line (kept_lines out))) eqn:Hf;
          simpl in Hres; [|done].
        injection Hres as <-. split; [done|]. split; [done|].
        exists out, err. done.
      * by rewrite (attempt_timeout _ _ _ _ _ _ Hp Ho He Hw) in Hres.
    + intros (Hready & Hp & out & err & Ho & He & Hw & Hlines & -> & Hf).
      rewrite (download_ready _ _ _ _ Hready). simpl.
      rewrite (attempt_exited _ _ _ _ _ _ Hp Ho He Hw). simpl.
      rewrite bool_decide_eq_false_2 by done. simpl. by rewrite Hf.
  - intros out err rc Hready Hp Ho He Hw Hcond.
    rewrite (download_ready _ _ _ _ Hready). simpl.
    rewrite (attempt_exited _ _ _ _ _ _ Hp Ho He Hw). unfold diagnostics.
    assert (Hfail :
      (rc =? 0)%Z && negb (bool_decide (kept_lines out = [])) = false
      \/ file_exists w (last_line (kept_lines out)) = false).
    { destruct Hcond as [Hrc|[Hl|Hf]]; [left|left|by right].
      - apply Z.eqb_neq in Hrc. by rewrite Hrc.
      - rewrite bool_decide_eq_true_2 by done. apply andb_false_r. }
    destruct ((rc =? 0)%Z && negb (bool_decide (kept_lines out = []))) eqn:Hc;
      [destruct Hfail as [?|Hf]; [done|rewrite Hf]|];
      simpl; (split; [done|]); split; intros ->; set_solver.
  - intros out err running Hready Hp Ho He Hw.
    rewrite (download_ready _ _ _ _ Hready).
    by rewrite (attempt_timeout _ _ _ _ _ _ Hp Ho He Hw).
  - intros msg Hready Hcase.
    rewrite (download_ready _ _ _ _ Hready).
    by rewrite (attempt_unexpected _ _ _ _ Hcase).
Qed.

End DownloadFacts.

(** ** The job state store *)

Section SessionFacts.
Context `{PyRuntime} {K : Type} `{Countable K}.
Variable key_of : pyval -> option K.

Lemma status_of_empty (k : K) : status_of (∅ : gmap K job) k = pending.
Proof. unfold status_of, status_info. by rewrite lookup_empty. Qed.

Lemma status_of_insert (store : gmap K job) k k' j :
  status_of (<[k := j]> store) k'
  = if decide (k = k') then j_status j else status_of store k'.
Proof.
  unfold status_of, status_info. rewrite lookup_insert.
  by destruct (decide (k = k')).
Qed.

Lemma download_outcome_final w r :
  j_status (download_outcome w r) = completed
  \/ download_outcome w r = failed_job.
Proof.
  unfold download_outcome, failed_job. destruct r as [p|]; [|by right].
  destruct (truthy p && exists_after w p); [by left | by right].
Qed.

(** The display loop writes at most one entry, along one edge of the
    state machine. *)
Lemma display_loop_step w url videos (store : gmap K job) :
  flow_val (display_loop key_of w url videos store) = store
  \/ exists k j,
      flow_val (display_loop key_of w url videos store) = <[k := j]> store
      /\ advance (status_of store k) (j_status j)
      /\ (j_status j = processing -> exists key, clicked w key = true)
      /\ exists index v, (index, v) ∈ videos /\ key_of (v_id v) = Some k.
Proof.
  induction videos as [|[index v] rest IH]; simpl; [by left|].
  assert (Hrest :
    flow_val (display_loop key_of w url rest store) = store
    \/ exists k j,
        flow_val (display_loop key_of w url rest store) = <[k := j]> store
        /\ advance (status_of store k) (j_status j)
        /\ (j_status j = processing -> exists key, clicked w key = true)
        /\ exists index' v', (index', v') ∈ (index, v) :: rest
                             /\ key_of (v_id v') = Some k).
  { destruct IH as [?|(k & j & ? & ? & ? & i' & v' & ? & ?)]; [by left|].
    right. exists k, j. repeat split; try done.
    exists i', v'. split; [by apply elem_of_cons; right | done]. }
  destruct (key_of (v_id v)) as [k|] eqn:Hk; simpl; [|by left].
  destruct (status_of store k) eqn:Hst; try done.
  - destruct (clicked w (start_key (v_id v) index)) eqn:Hc; simpl; [|done].
    right. exists k, {| j_status := processing; j_path := None |}.
    rewrite Hst. repeat split; [constructor | eauto |].
    exists index, v. split; [by apply elem_of_cons; left | done].
  - destruct (download_video_yt_dlp _ _ _ _) as [log [r| |]]; simpl;
      [|by left..].
    right. exists k, (download_outcome w r). rewrite Hst.
    repeat split.
    + destruct (download_outcome_final w r) as [->| ->]; constructor.
    + by destruct (download_outcome_final w r) as [->| ->].
    + exists index, v. split; [by apply elem_of_cons; left | done].
  - destruct (j_path (status_info store k)) as [p|]; [|done].
    destruct (truthy p && exists_shown w p && open_error w p); [by left|done].
Qed.

Lemma display_phase_store w s :
  download_status (flow_val (display_phase key_of w s))
  = flow_val (display_loop key_of w (url_input s)
                (enumerate (videos_to_process s)) (download_status s))
  /\ videos_to_process (flow_val (display_phase key_of w s)) = videos_to_process s.
Proof.
  unfold display_phase. by destruct (display_loop _ _ _ _ _).
Qed.

Lemma elem_of_enumerate_from {A} (i j : nat) (x : A) l :
  (j, x) ∈ enumerate_from i l -> x ∈ l.
Proof.
  revert i. induction l as [|y l IH]; intros i; simpl.
  - by intros ?%elem_of_nil.
  - intros [[= _ ->]|?]%elem_of_cons; apply elem_of_cons; [by left|].
    right. by eapply IH.
Qed.

(** The fetch block leaves the store alone or empties it. *)
Lemma fetch_phase_store w (s : session (K:=K)) :
  (fetch_triggered w s = false /\ flow_val (fetch_phase w s) = s)
  \/ (fetch_triggered w s = true
      /\ download_status (flow_val (fetch_phase w s)) = ∅).
Proof.
  unfold fetch_phase. destruct (fetch_triggered w s); [right|by left].
  split; [done|]. repeat case_match; done.
Qed.

Lemma cleanup_phase_store w (s : session (K:=K)) :
  videos_to_process (cleanup_phase w s) = videos_to_process s
  /\ (download_status (cleanup_phase w s) = download_status s
      \/ (download_status (cleanup_phase w s) = ∅
          /\ clicked w (py "clean_dir") = true /\ clean_dir_exists w = true)).
Proof.
  unfold cleanup_phase.
  destruct (clicked w (py "clean_dir")), (clean_dir_exists w),
    (listdir_error w); simpl; auto.
Qed.

(** The run as its three stretches. *)
Lemma script_run_phases w (s : session (K:=K)) :
  exists s1 s2,
    s1 = flow_val (fetch_phase w s)
    /\ s2 = flow_val (display_phase key_of w s1)
    /\ (script_run key_of w s = s1 \/ script_run key_of w s = s2
        \/ script_run key_of w s = cleanup_phase w s2).
Proof.
  unfold script_run. eexists _, _. split; [done|]. split; [done|].
  destruct (fetch_phase w s) as [s1|s1]; simpl; [|by left].
  destruct (display_phase key_of w s1) as [s2|s2]; simpl; auto.
Qed.

Lemma display_phase_forward w (s : session (K:=K)) k :
  stays_or_advances
    (status_of (download_status s) k)
    (status_of (download_status (flow_val (display_phase key_of w s))) k)
  /\ (status_of (download_status s) k = pending ->
      status_of (download_status (flow_val (display_phase key_of w s))) k
      = processing ->
      exists key, clicked w key = true).
Proof.
  rewrite (proj1 (display_phase_store w s)).
  destruct (display_loop_step w (url_input s) (enumerate (videos_to_process s))
              (download_status s)) as [->|(k0 & j & -> & Hadv & Hclick & _)].
  - split; [by left|]. congruence.
  - rewrite status_of_insert. destruct (decide (k0 = k)) as [->|Hne].
    + split; [by right|]. auto.
    + split; [by left|]. congruence.
Qed.

(** A pair of [enumerate] is an element with its position. *)
Lemma enumerate_from_lookup {A} (i j : nat) (x : A) l :
  (j, x) ∈ enumerate_from i l -> exists n, j = i + n /\ l !! n = Some x.
Proof.
  revert i. induction l as [|y l IH]; intros i; simpl.
  - by intros ?%elem_of_nil.
  - intros [[= -> ->]|Hin]%elem_of_cons.
    + exists 0. split; [lia|done].
    + destruct (IH _ Hin) as (n & -> & Hn). exists (S n). split; [lia|done].
Qed.

(** The fetch block never ends the run: both fetchers return. *)
Lemma fetch_phase_continues w (s : session (K:=K)) :
  exists s1, fetch_phase w s = Continue s1.
Proof.
  unfold fetch_phase. destruct (fetch_triggered w s); [|eauto].
  destruct (negb (truthy (current_url_input w))); [eauto|].
  destruct (is_playlist (current_url_input w)).
  - destruct (get_playlist_info_returns (current_url_input w) (fetch_tool w))
      as (log & videos & ->).
    destruct videos; eauto.
  - destruct (get_single_video_info_returns (current_url_input w) (fetch_tool w))
      as (log & r & ->).
    destruct r; eauto.
Qed.

(** The display loop leaves the store alone, or writes one entry: for a
    pending video whose Start button was clicked, or for a processing
    video whose download returned. *)
Lemma display_loop_edge w url videos (store : gmap K job) :
  flow_val (display_loop key_of w url videos store) = store
  \/ (exists index v k,
        (index, v) ∈ videos /\ key_of (v_id v) = Some k
        /\ status_of store k = pending
        /\ clicked w (start_key (v_id v) index) = true
        /\ flow_val (display_loop key_of w url videos store)
           = <[k := {| j_status := processing; j_path := None |}]> store)
  \/ (exists index v k r,
        (index, v) ∈ videos /\ key_of (v_id v) = Some k
        /\ status_of store k = processing
        /\ snd (download_video_yt_dlp (dl w) (v_url v) DOWNLOAD_DIR
                  (if is_playlist url then default PNone (v_index v) else PNone))
           = Ok r
        /\ flow_val (display_loop key_of w url videos store)
           = <[k := download_outcome w r]> store).
Proof.
  induction videos as [|[index v] rest IH]; simpl; [by left|].
  assert (Hrest :
    flow_val (display_loop key_of w url rest store) = store
    \/ (exists index' v' k,
          (index', v') ∈ (index, v) :: rest /\ key_of (v_id v') = Some k
          /\ status_of store k = pending
          /\ clicked w (start_key (v_id v') index') = true
          /\ flow_val (display_loop key_of w url rest store)
             = <[k := {| j_status := processing; j_path := None |}]> store)
    \/ (exists index' v' k r,
          (index', v') ∈ (index, v) :: rest /\ key_of (v_id v') = Some k
          /\ status_of store k = processing
          /\ snd (download_video_yt_dlp (dl w) (v_url v') DOWNLOAD_DIR
                    (if is_playlist url then default PNone (v_index v') else PNone))
             = Ok r
          /\ flow_val (display_loop key_of w url rest store)
             = <[k := download_outcome w r]> store)).
  { destruct IH as [?|[(i' & v' & k & ? & ? & ? & ? & ?)
                      |(i' & v' & k & r & ? & ? & ? & ? & ?)]]; [by left|..].
    - right. left. exists i', v', k.
      split; [by apply elem_of_cons; right | done].
    - right. right. exists i', v', k, r.
      split; [by apply elem_of_cons; right | done]. }
  destruct (key_of (v_id v)) as [k|] eqn:Hk; simpl; [|by left].
  destruct (status_of store k) eqn:Hst; try done.
  - destruct (clicked w (start_key (v_id v) index)) eqn:Hc; simpl; [|done].
    right. left. exists index, v, k.
    split; [by apply elem_of_cons; left | done].
  - destruct (download_video_yt_dlp _ _ _ _) as [log [r| |]] eqn:Hcall; simpl;
      [|by left..].
    right. right. exists index, v, k, r.
    split; [by apply elem_of_cons; left|]. split; [done|]. split; [done|].
    split; [|done]. by rewrite ?Hcall.
  - destruct (j_path (status_info store k)) as [p|]; [|done].
    destruct (truthy p && exists_shown w p && open_error w p); [by left|done].
Qed.

Lemma display_phase_edge w (s : session (K:=K)) :
  download_status (flow_val (display_phase key_of w s)) = download_status s
  \/ (exists index v k,
        videos_to_process s !! index = Some v /\ key_of (v_id v) = Some k
        /\ status_of (download_status s) k = pending
        /\ clicked w (start_key (v_id v) index) = true
        /\ download_status (flow_val (display_phase key_of w s))
           = <[k := {| j_status := processing; j_path := None |}]>
               (download_status s))
  \/ (exists index v k r,
        videos_to_process s !! index = Some v /\ key_of (v_id v) = Some k
        /\ status_of (download_status s) k = processing
        /\ snd (download_video_yt_dlp (dl w) (v_url v) DOWNLOAD_DIR
                  (if is_playlist (url_input s) then default PNone (v_index v)
                   else PNone))
           = Ok r
        /\ download_status (flow_val (display_phase key_of w s))
           = <[k := download_outcome w r]> (download_status s)).
Proof.
  rewrite (proj1 (display_phase_store w s)).
  destruct (display_loop_edge w (url_input s) (enumerate (videos_to_process s))
              (download_status s))
    as [?|[(index & v & k & Hin & ? & ? & ? & ?)
          |(index & v & k & r & Hin & ? & ? & ? & ?)]]; [by left|..];
    apply enumerate_from_lookup in Hin as (n & -> & Hn); simpl.
  - right. left. by exists n, v, k.
  - right. right. by exists n, v, k, r.
Qed.

(** The loop over two stretches of rows. *)
Lemma display_loop_app w url l1 l2 (store : gmap K job) :
  display_loop key_of w url (l1 ++ l2) store
  = match display_loop key_of w url l1 store with
    | Continue store' => display_loop key_of w url l2 store'
    | Stop store' => Stop store'
    end.
Proof.
  induction l1 as [|[index v] l1 IH]; simpl; [done|].
  destruct (key_of (v_id v)) as [k|]; [|done].
  destruct (status_of store k); try done.
  - by destruct (clicked w (start_key (v_id v) index)).
  - by destruct (download_video_yt_dlp _ _ _ _) as [log [r| |]].
  - destruct (j_path (status_info store k)) as [p|]; [|done].
    by destruct (truthy p && exists_shown w p && open_error w p).
Qed.

(** The Start button of a row the loop comes to, for a video without
    entry: the entry is written and the run ends there. *)
Lemma display_phase_starts w (s : session (K:=K)) pre v post k :
  videos_to_process s = pre ++ v :: post ->
  key_of (v_id v) = Some k ->
  download_status s !! k = None ->
  display_loop key_of w (url_input s) (enumerate pre) (download_status s)
  = Continue (download_status s) ->
  clicked w (start_key (v_id v) (length pre)) = true ->
  display_phase key_of w s
  = Stop {| url_input := url_input s; videos_to_process := videos_to_process s;
            download_status :=
              <[k := {| j_status := processing; j_path := None |}]>
                (download_status s) |}.
Proof.
  intros Hv Hk Hnone Hpre Hc. unfold display_phase, enumerate.
  rewrite Hv at 1. rewrite enumerate_from_app, display_loop_app.
  unfold enumerate in Hpre. rewrite Hpre. simpl. rewrite Hk.
  unfold status_of, status_info. rewrite Hnone. simpl. by rewrite Hc.
Qed.

(** C6. In one run of the script, with [s1] the session after the fetch
    block and [s2] the session after the rows of the videos: the fetch
    block leaves the session alone, or empties the store when a fetch is
    triggered; then the status of a video stays or moves along one edge of
    [pending -> processing -> completed | failed]; it leaves [pending]
    only when the Start button of that video's row was clicked, and it
    leaves [processing] only with the result of the download of that
    video; a completed or failed status stays, so nothing is retried.
    The run ends with the store of [s2], or with the empty store when the
    directory is cleaned; and when the rows do not end the run, a click on
    the cleaning button with the directory there and listed empties the
    store.  In an empty store every video reads as pending. *)
Theorem job_status_moves_forward w (s : session (K:=K)) :
  let s1 := flow_val (fetch_phase w s) in
  let s2 := flow_val (display_phase key_of w s1) in
  (fetch_triggered w s = false -> s1 = s)
  /\ (fetch_triggered w s = true -> download_status s1 = ∅)
  /\ (forall k, stays_or_advances (status_of (download_status s1) k)
                  (status_of (download_status s2) k))
  /\ (forall k,
        status_of (download_status s1) k = pending ->
        status_of (download_status s2) k = processing ->
        exists index v,
          videos_to_process s1 !! index = Some v
          /\ key_of (v_id v) = Some k
          /\ clicked w (start_key (v_id v) index) = true)
  /\ (forall k,
        status_of (download_status s1) k = processing ->
        status_of (download_status s2) k <> processing ->
        exists index v r,
          videos_to_process s1 !! index = Some v
          /\ key_of (v_id v) = Some k
          /\ snd (download_video_yt_dlp (dl w) (v_url v) DOWNLOAD_DIR
                    (if is_playlist (url_input s1) then default PNone (v_index v)
                     else PNone))
             = Ok r
          /\ download_status s2 !! k = Some (download_outcome w r))
  /\ (forall k,
        status_of (download_status s1) k = completed
        \/ status_of (download_status s1) k = failed ->
        status_of (download_status s2) k = status_of (download_status s1) k)
  /\ (download_status (script_run key_of w s) = download_status s2
      \/ (download_status (script_run key_of w s) = ∅
          /\ clicked w (py "clean_dir") = true /\ clean_dir_exists w = true
          /\ listdir_error w = false))
  /\ ((exists s2', display_phase key_of w s1 = Continue s2') ->
      clicked w (py "clean_dir") = true -> clean_dir_exists w = true ->
      listdir_error w = false ->
      download_status (script_run key_of w s) = ∅)
  /\ (forall k : K, status_of (∅ : gmap K job) k = pending).
Proof.
  intros s1 s2.
  assert (Hforward : forall k,
    stays_or_advances (status_of (download_status s1) k)
      (status_of (download_status s2) k)).
  { intros k. subst s2.
    destruct (display_phase_edge w s1)
      as [->|[(index & v & k0 & _ & _ & Hst & _ & ->)
             |(index & v & k0 & r & _ & _ & Hst & _ & ->)]]; [by left|..];
      rewrite status_of_insert; destruct (decide (k0 = k)) as [->|Hne];
      try (by left); rewrite Hst; right; simpl; [constructor|].
    destruct (download_outcome_final w r) as [->| ->]; constructor. }
  split; [|split; [|split; [|split; [|split; [|split; [|split; [|split]]]]]]].
  - intros Ht. subst s1.
    destruct (fetch_phase_store w s) as [[_ ?]|[? _]]; congruence.
  - intros Ht. subst s1.
    destruct (fetch_phase_store w s) as [[? _]|[_ ?]]; congruence.
  - exact Hforward.
  - intros k Hp Hq. subst s2.
    destruct (display_phase_edge w s1)
      as [He|[(index & v & k0 & Hv & Hk & Hst & Hc & He)
             |(index & v & k0 & r & Hv & Hk & Hst & Hr & He)]];
      rewrite He in Hq.
    + congruence.
    + rewrite status_of_insert in Hq. destruct (decide (k0 = k)) as [->|Hne];
        [eauto | congruence].
    + rewrite status_of_insert in Hq. destruct (decide (k0 = k)) as [->|Hne];
        congruence.
  - intros k Hp Hq. subst s2.
    destruct (display_phase_edge w s1)
      as [He|[(index & v & k0 & Hv & Hk & Hst & Hc & He)
             |(index & v & k0 & r & Hv & Hk & Hst & Hr & He)]];
      rewrite He in Hq |- *.
    + congruence.
    + rewrite status_of_insert in Hq. destruct (decide (k0 = k)) as [->|Hne];
        congruence.
    + rewrite status_of_insert in Hq. destruct (decide (k0 = k)) as [->|Hne];
        [|congruence].
      exists index, v, r. by rewrite lookup_insert_eq.
  - intros k Hfin. destruct (Hforward k) as [<-|Hadv]; [done|].
    destruct Hfin as [Hf|Hf]; rewrite Hf in Hadv; inversion Hadv.
  - subst s2 s1. unfold script_run.
    destruct (fetch_phase_continues w s) as [s1 ->]. simpl.
    destruct (display_phase key_of w s1) as [s2|s2]; simpl; [|by left].
    unfold cleanup_phase.
    destruct (clicked w (py "clean_dir")), (clean_dir_exists w),
      (listdir_error w); simpl; auto.
  - intros [s2' Hd] Hc He Hl. subst s2 s1. unfold script_run.
    destruct (fetch_phase_continues w s) as [s1 Hf]. rewrite Hf in Hd |- *.
    simpl in Hd. rewrite Hd. unfold cleanup_phase. by rewrite Hc, He, Hl.
  - apply status_of_empty.
Qed.

Lemma fetch_phase_live w s :
  entries_are_live key_of s -> entries_are_live key_of (flow_val (fetch_phase w s)).
Proof.
  intros Hs. destruct (fetch_phase_store w s) as [[_ ->]|[_ He]]; [done|].
  intros k j Hk. rewrite He in Hk. by rewrite lookup_empty in Hk.
Qed.

Lemma display_phase_live w s :
  entries_are_live key_of s -> entries_are_live key_of (flow_val (display_phase key_of w s)).
Proof.
  intros Hs k j. destruct (display_phase_store w s) as [-> ->].
  destruct (display_loop_step w (url_input s) (enumerate (videos_to_process s))
              (download_status s))
    as [->|(k0 & j0 & -> & Hadv & _ & index & v & Hin & Hk)]; [apply Hs|].
  rewrite lookup_insert. destruct (decide (k0 = k)) as [->|Hne]; [|apply Hs].
  intros [= <-]. split.
  - intros Hp. rewrite Hp in Hadv. inversion Hadv.
  - exists v. split; [by eapply elem_of_enumerate_from | done].
Qed.

Lemma cleanup_phase_live w s :
  entries_are_live key_of s -> entries_are_live key_of (cleanup_phase w s).
Proof.
  intros Hs k j. destruct (cleanup_phase_store w s) as [-> [->|[-> _]]].
  - apply Hs.
  - by rewrite lookup_empty.
Qed.

Lemma reachable_live s : reachable key_of s -> entries_are_live key_of s.
Proof.
  induction 1 as [|w s _ IH].
  - intros k j Hk. simpl in Hk. by rewrite lookup_empty in Hk.
  - destruct (script_run_phases w s) as (s1 & s2 & -> & -> & [->|[->| ->]]).
    + by apply fetch_phase_live.
    + by apply display_phase_live, fetch_phase_live.
    + by apply cleanup_phase_live, display_phase_live, fetch_phase_live.
Qed.

(** C3, amended. In every session the script can reach, the store holds
    at most one entry for an id (it is a map), only for ids of videos of
    the working set, and never one with status pending: adding videos to
    the working set creates no entry, it empties the store, and a video
    without entry reads as pending.  An entry is first written, with status
    processing, when the download is started: an entry that the rows of
    the videos create is the processing entry of a video of the working
    set whose Start button was clicked; and a click on the Start button of
    a row the loop comes to, for a video without entry, creates that
    entry, in the run as a whole when no fetch is triggered. *)
Theorem job_entries_are_created_on_start (s : session (K:=K)) :
  reachable key_of s ->
  (forall k j,
      download_status s !! k = Some j ->
      j_status j <> pending
      /\ exists v, v ∈ videos_to_process s /\ key_of (v_id v) = Some k)
  /\ (forall w, fetch_triggered w s = true ->
                download_status (flow_val (fetch_phase w s)) = ∅)
  /\ (forall k, download_status s !! k = None ->
                status_of (download_status s) k = pending)
  /\ (forall w k,
        download_status s !! k = None ->
        download_status (flow_val (display_phase key_of w s)) !! k = None
        \/ download_status (flow_val (display_phase key_of w s)) !! k
           = Some {| j_status := processing; j_path := None |})
  /\ (forall w k j,
        download_status s !! k = None ->
        download_status (flow_val (display_phase key_of w s)) !! k = Some j ->
        j = {| j_status := processing; j_path := None |}
        /\ exists index v,
            videos_to_process s !! index = Some v
            /\ key_of (v_id v) = Some k
            /\ clicked w (start_key (v_id v) index) = true)
  /\ (forall w pre v post k,
        videos_to_process s = pre ++ v :: post ->
        key_of (v_id v) = Some k ->
        download_status s !! k = None ->
        display_loop key_of w (url_input s) (enumerate pre) (download_status s)
        = Continue (download_status s) ->
        clicked w (start_key (v_id v) (length pre)) = true ->
        download_status (flow_val (display_phase key_of w s)) !! k
        = Some {| j_status := processing; j_path := None |}
        /\ (fetch_triggered w s = false ->
            download_status (script_run key_of w s) !! k
            = Some {| j_status := processing; j_path := None |})).
Proof.
  intros Hreach.
  assert (Hcreate : forall w k j,
    download_status s !! k = None ->
    download_status (flow_val (display_phase key_of w s)) !! k = Some j ->
    j = {| j_status := processing; j_path := None |}
    /\ exists index v,
        videos_to_process s !! index = Some v
        /\ key_of (v_id v) = Some k
        /\ clicked w (start_key (v_id v) index) = true).
  { intros w k j Hnone Hsome.
    destruct (display_phase_edge w s)
      as [He|[(index & v & k0 & Hv & Hk & Hst & Hc & He)
             |(index & v & k0 & r & Hv & Hk & Hst & Hr & He)]];
      rewrite He in Hsome.
    - congruence.
    - rewrite lookup_insert in Hsome.
      destruct (decide (k0 = k)) as [->|Hne]; [|congruence].
      injection Hsome as <-. split; [done|]. by exists index, v.
    - rewrite lookup_insert in Hsome.
      destruct (decide (k0 = k)) as [->|Hne]; [|congruence].
      unfold status_of, status_info in Hst. by rewrite Hnone in Hst. }
  split; [by apply reachable_live|]. split; [|split; [|split; [|split]]].
  - intros w Ht. destruct (fetch_phase_store w s) as [[? _]|[_ ?]]; congruence.
  - intros k Hk. unfold status_of, status_info. by rewrite Hk.
  - intros w k Hk.
    destruct (download_status (flow_val (display_phase key_of w s)) !! k)
      as [j|] eqn:Hj; [|by left].
    right. by destruct (Hcreate w k j Hk Hj) as [-> _].
  - exact Hcreate.
  - intros w pre v post k Hv Hk Hnone Hpre Hc.
    pose proof (display_phase_starts w s pre v post k Hv Hk Hnone Hpre Hc) as Hd.
    split.
    + rewrite Hd. simpl. by rewrite lookup_insert_eq.
    + intros Ht. unfold script_run, fetch_phase. rewrite Ht, Hd. simpl.
      by rewrite lookup_insert_eq.
Qed.

(** The wait itself, once it is reached: when it runs out of time, the
    call shows that the download timed out, kills the subprocess if it is
    still running, and returns [None]; the status of the video becomes
    failed with the reason [Server download failed.], the one every failed
    download gets. *)
Lemma download_timeout_is_plain_failure w url index v rest
    (store : gmap K job) k out err running :
  key_of (v_id v) = Some k ->
  status_of store k = processing ->
  directory_ready (dl w) ->
  popen_error (dl w) = None ->
  proc_stdout (dl w) = Text out ->
  proc_stderr (dl w) = Text err ->
  proc_wait (dl w) = WaitTimeout running ->
  let call :=
    download_video_yt_dlp (dl w) (v_url v) DOWNLOAD_DIR
      (if is_playlist url then default PNone (v_index v) else PNone) in
  snd call = Ok None
  /\ (Kill ∈ fst call <-> running = true)
  /\ Ui LError (py "Download timed out for " ++ v_url v
                ++ py ". The video might be too large or network slow.")
       ∈ fst call
  /\ display_loop key_of w url ((index, v) :: rest) store
     = Stop (<[k := {| j_status := failed;
                       j_path := Some (py "Server download failed.") |}]> store).
Proof.
  intros Hk Hst Hready Hp Ho He Hw call.
  assert (Hcall : call
    = (download_prelude (dl w) (v_url v) DOWNLOAD_DIR
         (if is_playlist url then default PNone (v_index v) else PNone)
       ++ Popen (download_command (v_url v) DOWNLOAD_DIR
                   (if is_playlist url then default PNone (v_index v) else PNone))
       :: Ui LError (py "Download timed out for " ++ v_url v
                     ++ py ". The video might be too large or network slow.")
       :: (if running
           then [Kill; Ui LWarning (py "yt-dlp process was killed due to timeout.")]
           else []),
       Ok None)).
  { subst call. rewrite (download_ready _ _ _ _ Hready).
    by rewrite (attempt_timeout _ _ _ _ _ _ Hp Ho He Hw). }
  split; [by rewrite Hcall|]. split; [|split].
  - rewrite Hcall. simpl. unfold download_prelude.
    destruct running, (dir_exists (dl w)); simpl; split; try done; set_solver.
  - rewrite Hcall. simpl. set_solver.
  - simpl. rewrite Hk, Hst. fold call. by rewrite Hcall.
Qed.

(** C2. The bound of 600 seconds is not enforced while a pipe is open.
    The wait that carries the bound comes after the two loops that read
    stdout and stderr to their end, so for a subprocess that keeps one of
    them open the call spawns the tool and then sits in a reading loop:
    whatever the wait would have answered, nothing is killed, no error is
    shown and the call does not return; the run of the script ends there
    and the status of the video stays processing, not failed. *)
Theorem download_timeout_is_not_enforced w url index v rest
    (store : gmap K job) k :
  key_of (v_id v) = Some k ->
  status_of store k = processing ->
  directory_ready (dl w) ->
  popen_error (dl w) = None ->
  proc_stdout (dl w) = NeverEnds
  \/ ((exists out, proc_stdout (dl w) = Text out)
      /\ proc_stderr (dl w) = NeverEnds) ->
  let idx := if is_playlist url then default PNone (v_index v) else PNone in
  let call := download_video_yt_dlp (dl w) (v_url v) DOWNLOAD_DIR idx in
  call = (download_prelude (dl w) (v_url v) DOWNLOAD_DIR idx
          ++ [Popen (download_command (v_url v) DOWNLOAD_DIR idx)],
          Blocked)
  /\ (Kill ∉ fst call)
  /\ (forall lv text, Ui lv text ∈ fst call -> lv = LInfo \/ lv = LCaption)
  /\ (forall r, snd call <> Ok r)
  /\ display_loop key_of w url ((index, v) :: rest) store = Stop store
  /\ status_of (flow_val (display_loop key_of w url ((index, v) :: rest) store)) k
     = processing.
Proof.
  intros Hk Hst Hready Hp Hopen idx call.
  assert (Hcall : call
    = (download_prelude (dl w) (v_url v) DOWNLOAD_DIR idx
       ++ [Popen (download_command (v_url v) DOWNLOAD_DIR idx)],
       Blocked)).
  { subst call. rewrite (download_ready _ _ _ _ Hready).
    unfold download_body, download_handlers, read_lines, try_except. simpl.
    destruct Hopen as [Ho|[[out Ho] He]].
    - by rewrite Hp, Ho.
    - by rewrite Hp, Ho, He. }
  assert (Hloop : display_loop key_of w url ((index, v) :: rest) store = Stop store).
  { simpl. rewrite Hk, Hst. fold idx. fold call. by rewrite Hcall. }
  split; [exact Hcall|]. rewrite Hloop, Hcall. simpl.
  split; [|split; [|split; [|done]]].
  - unfold download_prelude. destruct (dir_exists (dl w)); set_solver.
  - intros lv text. unfold download_prelude.
    destruct (dir_exists (dl w)); set_solver.
  - done.
Qed.

End SessionFacts.

(** *** The invoker and the store on concrete worlds *)


(** C4 as stated fails twice.  The tool prints the file name and then an
    empty line: the last printed line is empty and names no file, yet the
    call returns the line before it.  And the tool closes its pipes and
    outlives the wait: the call returns [None] and shows neither the
    captured stdout nor the captured stderr. *)
Lemma last_printed_line_may_be_blank :
  readlines (py "yt_dlp_downloads/Foo.mp4" ++ [NL] ++ [NL])
  = [py "yt_dlp_downloads/Foo.mp4" ++ [NL]; [NL]]
  /\ file_exists world_blank_tail [NL] = false
  /\ file_exists world_blank_tail (strip [NL]) = false
  /\ snd (@download_video_yt_dlp example_runtime world_blank_tail single_url
            DOWNLOAD_DIR PNone)
     = Ok (Some (py "yt_dlp_downloads/Foo.mp4"))
  /\ @download_video_yt_dlp example_runtime world_timeout single_url
       DOWNLOAD_DIR PNone
     = ([Ui LInfo (py "Attempting to download: https://youtu.be/abc123");
         Ui LCaption (py "yt-dlp command: yt-dlp -o yt_dlp_downloads/%(title)s.%(ext)s --no-simulate --print filename https://youtu.be/abc123");
         Popen [py "yt-dlp"; py "-o"; py "yt_dlp_downloads/%(title)s.%(ext)s";
                py "--no-simulate"; py "--print"; py "filename"; single_url];
         Ui LError (py "Download timed out for https://youtu.be/abc123. The video might be too large or network slow.");
         Kill;
         Ui LWarning (py "yt-dlp process was killed due to timeout.")],
        Ok None).
Proof.
  vm_compute. repeat split.
Qed.

(** C4, amended, at four worlds.  Of two file names, both on disk, and
    an empty line, the second name is returned, stripped; an exit code of
    1 gives [None] and shows stderr; a wait that ran out of time gives
    [None], the error, the kill and its warning, and nothing of the lines
    read; a spawn that raised gives [None] and the exception. *)
Lemma download_returns_last_kept_line_witness :
  (kept_lines (py "yt_dlp_downloads/Foo.f137.mp4" ++ [NL]
               ++ py "  yt_dlp_downloads/Foo.mp4  " ++ [NL] ++ [NL])
   = [py "yt_dlp_downloads/Foo.f137.mp4"; py "yt_dlp_downloads/Foo.mp4"]
   /\ file_exists world_auxiliary_lines (py "yt_dlp_downloads/Foo.f137.mp4") = true
   /\ snd (@download_video_yt_dlp example_runtime world_auxiliary_lines single_url
             DOWNLOAD_DIR PNone)
      = Ok (Some (py "yt_dlp_downloads/Foo.mp4")))
  /\ (snd (@download_video_yt_dlp example_runtime world_exit_1 single_url
             DOWNLOAD_DIR PNone) = Ok None
      /\ Ui LWarning (py "yt-dlp stderr:" ++ [NL] ++ py "ERROR: Video unavailable")
           ∈ fst (@download_video_yt_dlp example_runtime world_exit_1 single_url
                    DOWNLOAD_DIR PNone))
  /\ @download_video_yt_dlp example_runtime world_timeout single_url
       DOWNLOAD_DIR PNone
     = (@download_prelude example_runtime world_timeout single_url DOWNLOAD_DIR PNone
        ++ [Popen (@download_command example_runtime single_url DOWNLOAD_DIR PNone);
            Ui LError (py "Download timed out for " ++ single_url
                       ++ py ". The video might be too large or network slow.");
            Kill;
            Ui LWarning (py "yt-dlp process was killed due to timeout.")],
        Ok None)
  /\ @download_video_yt_dlp example_runtime world_popen_fails single_url
       DOWNLOAD_DIR PNone
     = (@download_prelude example_runtime world_popen_fails single_url
          DOWNLOAD_DIR PNone
        ++ [Popen (@download_command example_runtime single_url DOWNLOAD_DIR PNone);
            Ui LError (py "An unexpected error occurred during download: "
                       ++ py "[Errno 2] No such file or directory: 'yt-dlp'")],
        Ok None).
Proof.
  split; [|split; [|split]].
  - split; [vm_compute; reflexivity|]. split; [vm_compute; reflexivity|].
    apply (proj1 (@download_returns_last_kept_line example_runtime
                    world_auxiliary_lines single_url DOWNLOAD_DIR PNone)).
    split; [by left|]. split; [done|].
    exists (py "yt_dlp_downloads/Foo.f137.mp4" ++ [NL]
            ++ py "  yt_dlp_downloads/Foo.mp4  " ++ [NL] ++ [NL]), [].
    repeat split; try (vm_compute; reflexivity). vm_compute. discriminate.
  - destruct (proj1 (proj2 (@download_returns_last_kept_line example_runtime
                       world_exit_1 single_url DOWNLOAD_DIR PNone))
                [] (py "ERROR: Video unavailable" ++ [NL]) 1%Z)
      as (Hres & _ & Herr); try done; [by left | left; lia |].
    split; [exact Hres|]. apply Herr. vm_compute. reflexivity.
  - apply (proj1 (proj2 (proj2 (@download_returns_last_kept_line example_runtime
                    world_timeout single_url DOWNLOAD_DIR PNone)))
             (py "[download] 50%" ++ [NL]) (py "WARNING: slow" ++ [NL]) true);
      try reflexivity. by left.
  - apply (proj2 (proj2 (proj2 (@download_returns_last_kept_line example_runtime
                    world_popen_fails single_url DOWNLOAD_DIR PNone)))
             (py "[Errno 2] No such file or directory: 'yt-dlp'")).
    + by left.
    + by left.
Defined.

(** The bound of 600 seconds is on the wait, which starts once both pipes
    are at their end.  While the tool keeps its stdout open the call sits
    in the reading loop; nothing is killed. *)
Lemma download_blocks_while_pipe_is_open :
  @download_video_yt_dlp example_runtime world_open_pipe single_url
    DOWNLOAD_DIR PNone
  = ([Ui LInfo (py "Attempting to download: https://youtu.be/abc123");
      Ui LCaption (py "yt-dlp command: yt-dlp -o yt_dlp_downloads/%(title)s.%(ext)s --no-simulate --print filename https://youtu.be/abc123");
      Popen [py "yt-dlp"; py "-o"; py "yt_dlp_downloads/%(title)s.%(ext)s";
             py "--no-simulate"; py "--print"; py "filename"; single_url]],
     Blocked).
Proof. vm_compute. reflexivity. Qed.

(** After a download whose wait timed out the entry of the video is the
    one an exit code of 1 leaves, failed with the reason
    [Server download failed.], which says nothing of a timeout. *)
Lemma timeout_leaves_no_timeout_reason :
  download_status
    (@script_run example_runtime _ _ _ example_key_of (run_with world_timeout)
       processing_session) !! Some (py "abc123")
  = Some {| j_status := failed; j_path := Some (py "Server download failed.") |}
  /\ download_status
       (@script_run example_runtime _ _ _ example_key_of (run_with world_exit_1)
          processing_session) !! Some (py "abc123")
     = Some {| j_status := failed; j_path := Some (py "Server download failed.") |}
  /\ contains (py "time") (py "Server download failed.") = false.
Proof.
  vm_compute. repeat split.
Qed.

(** The wait that timed out, at [world_timeout]. *)
Lemma download_timeout_witness :
  snd (@download_video_yt_dlp example_runtime world_timeout single_url
         DOWNLOAD_DIR PNone) = Ok None
  /\ Kill ∈ fst (@download_video_yt_dlp example_runtime world_timeout single_url
                   DOWNLOAD_DIR PNone)
  /\ @display_loop example_runtime _ _ _ example_key_of (run_with world_timeout)
       single_url [(0, single_video)] (download_status processing_session)
     = Stop (<[Some (py "abc123") := failed_job]>
               (download_status processing_session)).
Proof.
  destruct (@download_timeout_is_plain_failure example_runtime _ _ _
              example_key_of (run_with world_timeout) single_url 0 single_video []
              (download_status processing_session) (Some (py "abc123"))
              (py "[download] 50%" ++ [NL]) (py "WARNING: slow" ++ [NL]) true)
    as (Hres & Hkill & _ & Hstore);
    try reflexivity; [by left|].
  split; [exact Hres|]. split; [by apply Hkill | exact Hstore].
Defined.

(** C2 at [world_open_pipe], where the tool never closes its stdout and
    would still be running when a wait of 600 seconds gave up: the call
    spawns it and does not return, nothing is killed, and the run that
    finds the video in processing leaves it in processing. *)
Lemma download_timeout_is_not_enforced_witness :
  proc_wait world_open_pipe = WaitTimeout true
  /\ @download_video_yt_dlp example_runtime world_open_pipe single_url
       DOWNLOAD_DIR PNone
     = (@download_prelude example_runtime world_open_pipe single_url
          DOWNLOAD_DIR PNone
        ++ [Popen (@download_command example_runtime single_url DOWNLOAD_DIR PNone)],
        Blocked)
  /\ (Kill ∉ fst (@download_video_yt_dlp example_runtime world_open_pipe
                    single_url DOWNLOAD_DIR PNone))
  /\ @display_loop example_runtime _ _ _ example_key_of (run_with world_open_pipe)
       single_url [(0, single_video)] (download_status processing_session)
     = Stop (download_status processing_session)
  /\ status_of
       (download_status
          (@script_run example_runtime _ _ _ example_key_of
             (run_with world_open_pipe) processing_session))
       (Some (py "abc123"))
     = processing.
Proof.
  destruct (@download_timeout_is_not_enforced example_runtime _ _ _
              example_key_of (run_with world_open_pipe) single_url 0
              single_video [] (download_status processing_session)
              (Some (py "abc123")))
    as (Hcall & Hkill & _ & _ & Hloop & _);
    [reflexivity | vm_compute; reflexivity | by left | reflexivity | by left |].
  split; [reflexivity|]. split; [exact Hcall|]. split; [exact Hkill|].
  split; [exact Hloop|]. vm_compute. reflexivity.
Defined.

(** C6 at three runs.  The run that finds the video in processing and a
    tool that exits with 1 leaves it failed; the next run, with nothing
    clicked, leaves it failed: nothing is retried; the run in which the
    directory is cleaned empties the store, and the video reads as pending
    again. *)
Lemma job_status_moves_forward_witness :
  let failed_session :=
    @script_run example_runtime _ _ _ example_key_of (run_with world_exit_1)
      processing_session in
  status_of (download_status failed_session) (Some (py "abc123")) = failed
  /\ status_of
       (download_status
          (flow_val (@display_phase example_runtime _ _ _ example_key_of
                       (run_with world_exit_1)
                       (flow_val (@fetch_phase example_runtime _ _ _
                                    (run_with world_exit_1) failed_session)))))
       (Some (py "abc123"))
     = status_of
         (download_status
            (flow_val (@fetch_phase example_runtime _ _ _
                         (run_with world_exit_1) failed_session)))
         (Some (py "abc123"))
  /\ download_status
       (@script_run example_runtime _ _ _ example_key_of run_clean failed_session)
     = ∅
  /\ status_of
       (download_status
          (@script_run example_runtime _ _ _ example_key_of run_clean
             failed_session))
       (Some (py "abc123"))
     = pending.
Proof.
  intros failed_session.
  pose proof (@job_status_moves_forward example_runtime _ _ _ example_key_of
                (run_with world_exit_1) failed_session)
    as (_ & _ & _ & _ & _ & Hstay & _).
  pose proof (@job_status_moves_forward example_runtime _ _ _ example_key_of
                run_clean failed_session)
    as (_ & _ & _ & _ & _ & _ & _ & Hclean & Hempty).
  assert (Hstore :
    download_status
      (@script_run example_runtime _ _ _ example_key_of run_clean failed_session)
    = ∅).
  { apply Hclean; [|reflexivity..]. eexists. vm_compute. reflexivity. }
  split; [vm_compute; reflexivity|]. split; [|split; [exact Hstore|]].
  - apply Hstay. right. vm_compute. reflexivity.
  - rewrite Hstore. apply Hempty.
Defined.

(** C3 as stated fails: after the first fetch the working set holds the
    video and the store holds no entry, pending or other. *)
Lemma fetched_video_has_no_entry :
  videos_to_process
    (@script_run example_runtime _ _ _ example_key_of (run_with world_exit_1)
       initial_session) = [single_video]
  /\ download_status
       (@script_run example_runtime _ _ _ example_key_of (run_with world_exit_1)
          initial_session) !! Some (py "abc123") = None
  /\ download_status
       (@script_run example_runtime _ _ _ example_key_of (run_with world_exit_1)
          initial_session) = ∅.
Proof.
  vm_compute. repeat split.
Qed.

(** C3, amended, at the session after the first fetch: the video reads
    as pending without an entry, and the run in which its Start button is
    clicked leaves its entry in the store, with status processing. *)
Lemma job_entries_witness :
  let fetched :=
    @script_run example_runtime _ _ _ example_key_of (run_with world_exit_1)
      initial_session in
  let started :=
    @script_run example_runtime _ _ _ example_key_of
      (run_start_with world_exit_1) fetched in
  videos_to_process fetched = [single_video]
  /\ download_status fetched !! Some (py "abc123") = None
  /\ status_of (download_status fetched) (Some (py "abc123")) = pending
  /\ download_status started !! Some (py "abc123")
     = Some {| j_status := processing; j_path := None |}.
Proof.
  intros fetched started.
  assert (Hreach : reachable example_key_of fetched)
    by apply reach_run, reach_init.
  destruct (@job_entries_are_created_on_start example_runtime _ _ _
              example_key_of fetched Hreach)
    as (_ & _ & Hpending & _ & _ & Hstart).
  split; [vm_compute; reflexivity|]. split; [vm_compute; reflexivity|].
  split.
  - apply Hpending. vm_compute. reflexivity.
  - apply (Hstart (run_start_with world_exit_1) [] single_video []).
    + vm_compute. reflexivity.
    + reflexivity.
    + vm_compute. reflexivity.
    + vm_compute. reflexivity.
    + vm_compute. reflexivity.
    + vm_compute. reflexivity.
Defined.

(** * Further properties *)

(** ** Stripping *)

#[local] Transparent py str_int join strip split readlines os_path_join
  os_path_basename kept_lines.

Lemma lstrip_keeps (c : N) (t : pystr) :
  isspace c = false -> lstrip (c :: t) = c :: t.
Proof. intros Hc. simpl. by rewrite Hc. Qed.

Lemma lstrip_head (s : pystr) c t : lstrip s = c :: t -> isspace c = false.
Proof.
  induction s as [|x s IH]; simpl; [done|].
  destruct (isspace x) eqn:Hx; [done|]. by intros [= <- _].
Qed.

Lemma lstrip_idemp (s : pystr) : lstrip (lstrip s) = lstrip s.
Proof.
  destruct (lstrip s) as [|c t] eqn:E; [done|].
  apply lstrip_keeps. by eapply lstrip_head.
Qed.

Lemma lstrip_snoc (l : pystr) c :
  isspace c = false -> lstrip (l ++ [c]) = lstrip l ++ [c].
Proof.
  intros Hc. induction l as [|x l IH]; simpl; [by rewrite Hc|].
  by destruct (isspace x).
Qed.

Lemma rstrip_keeps (c : N) (t : pystr) :
  isspace c = false -> rstrip (c :: t) = c :: rstrip t.
Proof.
  intros Hc. unfold rstrip. simpl. rewrite lstrip_snoc by done.
  by rewrite rev_app_distr.
Qed.

Lemma rstrip_idemp (s : pystr) : rstrip (rstrip s) = rstrip s.
Proof. unfold rstrip. by rewrite rev_involutive, lstrip_idemp. Qed.

(** [s.strip().strip() == s.strip()] *)
Lemma strip_idemp (s : pystr) : strip (strip s) = strip s.
Proof.
  unfold strip. destruct (lstrip s) as [|c t] eqn:E; [done|].
  pose proof (lstrip_head _ _ _ E) as Hc.
  rewrite (rstrip_keeps _ _ Hc), (lstrip_keeps _ _ Hc), (rstrip_keeps _ _ Hc).
  by rewrite rstrip_idemp.
Qed.

(** What the reading loop keeps is stripped and not empty. *)
Lemma kept_lines_stripped (text line : pystr) :
  In line (kept_lines text) -> line <> [] /\ strip line = line.
Proof.
  unfold kept_lines. intros [Hin Ht]%filter_In.
  apply in_map_iff in Hin as (raw & <- & _). split.
  - intros E. by rewrite E in Ht.
  - apply strip_idemp.
Qed.

Lemma last_line_in (lines : list pystr) :
  lines <> [] -> In (last_line lines) lines.
Proof.
  unfold last_line. induction lines as [|x [|y l] IH]; [done|by left|].
  intros _. right. by apply IH.
Qed.

#[local] Opaque py str_int join strip split readlines os_path_join
  os_path_basename kept_lines.

(** ** The download invoker, case by case *)

Section DownloadCases.
Context `{PyRuntime}.

Ltac run_attempt :=
  unfold download_body, download_handlers, read_lines, when_truthy, diagnostics;
  simpl.

(** The [try] statement spawns the tool and then goes one of the ways of
    [attempt_case]. *)
Lemma attempt_cases w url command :
  exists tail r,
    try_except (download_body w url command) (download_handlers w url)
    = (Popen command :: tail, r)
    /\ attempt_case w url tail r.
Proof.
  destruct (popen_error w) as [msg|] eqn:Hp.
  { eexists _, _. split; [|by apply ac_popen_fails].
    run_attempt. by rewrite Hp. }
  destruct (proc_stdout w) as [out|msg|] eqn:Ho.
  2:{ eexists _, _. split; [|by eapply ac_stdout_fails].
      run_attempt. by rewrite Hp, Ho. }
  2:{ eexists _, _. split; [|by apply ac_stdout_open].
      run_attempt. by rewrite Hp, Ho. }
  destruct (proc_stderr w) as [err|msg|] eqn:He.
  2:{ eexists _, _. split; [|by eapply ac_stderr_fails].
      run_attempt. by rewrite Hp, Ho, He. }
  2:{ eexists _, _. split; [|by eapply ac_stderr_open].
      run_attempt. by rewrite Hp, Ho, He. }
  destruct (proc_wait w) as [rc|running] eqn:Hw.
  2:{ eexists _, _. split; [|by eapply ac_timeout].
      run_attempt. rewrite Hp, Ho, He, Hw. simpl. by destruct running. }
  destruct (decide (rc = 0%Z)) as [->|Hrc].
  - destruct (decide (kept_lines out = [])) as [Hl|Hl].
    + eexists _, _. split; [|eapply ac_exit_failed; eauto].
      run_attempt. rewrite Hp, Ho, He, Hw. simpl.
      rewrite bool_decide_eq_true_2 by done. simpl.
      by destruct (truthy (join [NL] (kept_lines out))),
           (truthy (join [NL] (kept_lines err))).
    + destruct (file_exists w (last_line (kept_lines out))) eqn:Hf.
      * eexists _, _. split; [|by eapply ac_success].
        run_attempt. rewrite Hp, Ho, He, Hw. simpl.
        rewrite bool_decide_eq_false_2 by done. simpl. by rewrite Hf.
      * eexists _, _. split; [|by eapply ac_file_missing].
        run_attempt. rewrite Hp, Ho, He, Hw. simpl.
        rewrite bool_decide_eq_false_2 by done. simpl. rewrite Hf. simpl.
        by destruct (truthy (join [NL] (kept_lines out))),
             (truthy (join [NL] (kept_lines err))).
  - eexists _, _. split; [|eapply ac_exit_failed; eauto].
    run_attempt. rewrite Hp, Ho, He, Hw. simpl.
    apply Z.eqb_neq in Hrc. rewrite Hrc. simpl.
    by destruct (truthy (join [NL] (kept_lines out))),
         (truthy (join [NL] (kept_lines err))).
Qed.

(** The whole call: it ends at the directory, or it goes on to the [try]
    statement. *)
Lemma download_cases w url path idx :
  (dir_exists w = false
   /\ exists e, makedirs_error w = Some e
      /\ download_video_yt_dlp w url path idx
         = ([Makedirs path;
             Ui LError (py "Failed to create download directory " ++ path
                        ++ py ": " ++ e)],
            Ok None))
  \/ (directory_ready w
      /\ exists tail r,
          download_video_yt_dlp w url path idx
          = (download_prelude w url path idx
             ++ Popen (download_command url path idx) :: tail, r)
          /\ attempt_case w url tail r).
Proof.
  destruct (dir_exists w) eqn:Hd; [|destruct (makedirs_error w) as [e|] eqn:Hm].
  - right. assert (Hready : directory_ready w) by by left.
    split; [done|]. rewrite (download_ready _ _ _ _ Hready).
    destruct (attempt_cases w url (download_command url path idx))
      as (tail & r & -> & Hcase). eauto.
  - left. split; [done|]. exists e. split; [done|]. by apply download_unready.
  - right. assert (Hready : directory_ready w) by by right.
    split; [done|]. rewrite (download_ready _ _ _ _ Hready).
    destruct (attempt_cases w url (download_command url path idx))
      as (tail & r & -> & Hcase). eauto.
Qed.

Lemma unready_not_ready w e :
  dir_exists w = false -> makedirs_error w = Some e -> ~ directory_ready w.
Proof. intros Hd Hm [?|?]; congruence. Qed.

Lemma prelude_events w url path idx ev :
  ev ∈ download_prelude w url path idx ->
  ev = Makedirs path \/ exists lv text, ev = Ui lv text.
Proof.
  unfold download_prelude. destruct (dir_exists w); simpl; set_solver.
Qed.

Lemma diagnostics_events out err ev :
  ev ∈ diagnostics out err -> exists lv text, ev = Ui lv text.
Proof.
  unfold diagnostics. repeat case_match; simpl; set_solver.
Qed.

(** Of the ways of [attempt_case], only the timeout with a live process
    kills. *)
Lemma attempt_case_kill w url tail r :
  attempt_case w url tail r ->
  Kill ∈ tail <->
  popen_error w = None
  /\ exists out err,
      proc_stdout w = Text out /\ proc_stderr w = Text err
      /\ proc_wait w = WaitTimeout true.
Proof.
  intros Hcase. split.
  - inversion Hcase; subst; intros Hin;
      try (apply elem_of_cons in Hin as [Hin|Hin];
           [discriminate|]);
      try (by apply elem_of_nil in Hin);
      try (apply diagnostics_events in Hin as (? & ? & ?); discriminate).
    destruct running; [eauto 10|by apply elem_of_nil in Hin].
  - intros (Hp & out & err & Ho & He & Hw).
    inversion Hcase; subst; try congruence.
    assert (running = true) as -> by congruence. set_solver.
Qed.

(** X1. Every exception of the download is caught: the call returns
    (a path or [None]) or never comes back; it raises nothing to its
    caller, whatever the directory, the spawn, the pipes and the wait do. *)
Theorem download_never_raises w url path idx :
  (exists r, snd (download_video_yt_dlp w url path idx) = Ok r)
  \/ snd (download_video_yt_dlp w url path idx) = Blocked.
Proof.
  destruct (download_cases w url path idx)
    as [(_ & e & _ & ->)|(_ & tail & r & -> & Hcase)]; simpl; [eauto|].
  inversion Hcase; subst; eauto.
Qed.

(** X2. The subprocess is killed in one case only: both pipes were read
    to their end, the wait timed out, and the process was still running
    when polled.  No other failure (spawn error, read error, exit code,
    missing file, directory that cannot be made) kills anything. *)
Theorem download_kills_only_after_timeout w url path idx :
  Kill ∈ fst (download_video_yt_dlp w url path idx) <->
  directory_ready w /\ popen_error w = None
  /\ exists out err,
      proc_stdout w = Text out /\ proc_stderr w = Text err
      /\ proc_wait w = WaitTimeout true.
Proof.
  destruct (download_cases w url path idx)
    as [(Hd & e & Hm & ->)|(Hready & tail & r & -> & Hcase)]; simpl.
  - split; [set_solver|]. intros [Hready _].
    by destruct (unready_not_ready _ _ Hd Hm).
  - rewrite elem_of_app, elem_of_cons, (attempt_case_kill _ _ _ _ Hcase).
    split.
    + intros [Hin|[?|?]]; [|done|by split].
      apply prelude_events in Hin as [?|(? & ? & ?)]; discriminate.
    + intros (_ & ?). auto.
Qed.

(** X3. The call never comes back exactly when the tool was spawned and
    a pipe is never closed: stdout, or stderr once stdout was read.  The
    timeout of the wait plays no part, since the wait comes after the
    reading. *)
Theorem download_blocks_iff_pipe_stays_open w url path idx :
  snd (download_video_yt_dlp w url path idx) = Blocked <->
  directory_ready w /\ popen_error w = None
  /\ (proc_stdout w = NeverEnds
      \/ exists out, proc_stdout w = Text out /\ proc_stderr w = NeverEnds).
Proof.
  destruct (download_cases w url path idx)
    as [(Hd & e & Hm & ->)|(Hready & tail & r & -> & Hcase)]; simpl.
  - split; [done|]. intros [Hready _].
    by destruct (unready_not_ready _ _ Hd Hm).
  - split.
    + intros ->. inversion Hcase; subst; eauto 10.
    + intros (_ & Hp & Hopen).
      inversion Hcase; subst; try done;
        destruct Hopen as [?|(? & ? & ?)]; congruence.
Qed.

(** A returned path is one of the kept lines of stdout. *)
Lemma download_path_is_kept w url path idx p :
  snd (download_video_yt_dlp w url path idx) = Ok (Some p) ->
  exists out, proc_stdout w = Text out /\ In p (kept_lines out).
Proof.
  destruct (download_cases w url path idx)
    as [(_ & e & _ & ->)|(_ & tail & r & -> & Hcase)]; simpl; [done|].
  intros ->. inversion Hcase; subst. eexists. split; [done|].
  by apply last_line_in.
Qed.

(** X4. A path returned by the download is never empty and has no white
    space around it; so the test [downloaded_file_server_path and
    os.path.exists(...)] of the status handler comes down to the existence
    of the file. *)
Theorem download_path_is_stripped w url path idx p :
  snd (download_video_yt_dlp w url path idx) = Ok (Some p) ->
  p <> [] /\ strip p = p
  /\ forall rw,
      download_outcome rw (Some p)
      = if exists_after rw p
        then {| j_status := completed; j_path := Some p |}
        else failed_job.
Proof.
  intros (out & _ & Hin)%download_path_is_kept.
  apply kept_lines_stripped in Hin as [Hne Hs].
  split; [done|]. split; [done|]. intros rw. unfold download_outcome.
  by destruct p.
Qed.


(** X6. When the spawn or the reading of a pipe raises, the call shows
    [An unexpected error occurred during download:] with the text of the
    exception and returns [None]. *)
Theorem download_unexpected_error w url path idx msg :
  directory_ready w ->
  popen_error w = Some msg
  \/ (popen_error w = None /\ proc_stdout w = ReadFails msg)
  \/ (popen_error w = None /\ (exists out, proc_stdout w = Text out)
      /\ proc_stderr w = ReadFails msg) ->
  download_video_yt_dlp w url path idx
  = (download_prelude w url path idx
     ++ [Popen (download_command url path idx);
         Ui LError (py "An unexpected error occurred during download: " ++ msg)],
     Ok None).
Proof.
  intros Hready Hfail.
  destruct (download_cases w url path idx)
    as [(Hd & e & Hm & _)|(_ & tail & r & -> & Hcase)].
  { by destruct (unready_not_ready _ _ Hd Hm). }
  inversion Hcase; subst;
    destruct Hfail as [?|[[? ?]|(? & [? ?] & ?)]]; congruence.
Qed.

(** X7. When the tool exits with a code other than zero the error shown
    names the URL and the code; when it exits with zero but the last kept
    line names no file, the error shown names that missing path.  Either
    way the call returns [None]. *)
Theorem download_failure_is_explained w url path idx out err rc :
  directory_ready w -> popen_error w = None ->
  proc_stdout w = Text out -> proc_stderr w = Text err ->
  proc_wait w = Exited rc ->
  (rc <> 0%Z ->
   snd (download_video_yt_dlp w url path idx) = Ok None
   /\ Ui LError (py "Download failed for " ++ url ++ py " (yt-dlp exit code: "
                 ++ str_int rc ++ py ").")
        ∈ fst (download_video_yt_dlp w url path idx))
  /\ (rc = 0%Z -> kept_lines out <> [] ->
      file_exists w (last_line (kept_lines out)) = false ->
      snd (download_video_yt_dlp w url path idx) = Ok None
      /\ Ui LError (py "yt-dlp reported success, but file not found: "
                    ++ last_line (kept_lines out))
           ∈ fst (download_video_yt_dlp w url path idx)).
Proof.
  intros Hready Hp Ho He Hw.
  destruct (download_cases w url path idx)
    as [(Hd & e & Hm & _)|(_ & tail & r & -> & Hcase)].
  { by destruct (unready_not_ready _ _ Hd Hm). }
  simpl. split.
  - intros Hrc. inversion Hcase; subst; try congruence.
    assert (out0 = out) as -> by congruence.
    assert (rc0 = rc) as -> by congruence.
    split; [done|]. set_solver.
  - intros -> Hl Hf. inversion Hcase; subst; try congruence.
    + assert (out0 = out) as -> by congruence.
      split; [done|]. set_solver.
    + assert (out0 = out) as -> by congruence.
      match goal with Hor : _ \/ _ |- _ => destruct Hor as [Hx|Hx] end.
      * congruence.
      * done.
Qed.

End DownloadCases.

(** ** The metadata fetchers, case by case *)

Section FetcherCases.
Context `{PyRuntime}.

Ltac run_single :=
  unfold get_single_video_info, communicate, when_truthy, single_head; simpl.

(** X8. [get_single_video_info] returns a record exactly when the tool
    exits with 0, its output is not blank and the whole output decodes to
    one JSON object.  The record has the object's id ([None] when absent),
    its title ([Untitled Video] when absent), the URL the function was
    called with, and no playlist index. *)
Theorem get_single_video_info_success url tool v :
  snd (get_single_video_info url tool) = Ok (Some v) <->
  exists out err d,
    tool = CommDone 0 out err
    /\ truthy (strip out) = true
    /\ json_loads out = inl (PDict d)
    /\ v = {| v_id := dict_get d (py "id") PNone;
              v_title := dict_get d (py "title") (PStr (py "Untitled Video"));
              v_url := url;
              v_index := None |}.
Proof.
  split.
  - destruct tool as [rc out err| |msg]; run_single; [|done..].
    destruct (rc =? 0)%Z eqn:Hrc; simpl.
    + apply Z.eqb_eq in Hrc as ->.
      destruct (truthy (strip out)) eqn:Hne; simpl; [|done].
      destruct (json_loads out) as [[]|[]] eqn:Hl; simpl; try done.
      intros [= <-]. eauto 10.
    + by destruct (truthy err), (truthy out).
  - intros (out & err & d & -> & Hne & Hl & ->). run_single.
    by rewrite Hne, Hl.
Qed.

(** X9. [get_single_video_info] raises nothing to its caller, and each
    way of failing returns [None] after a message of its own: the timeout;
    any other exception, with its text; a non-zero exit code, with the
    code; blank output; output that is not JSON, with the output and the
    decoder's message; JSON that is no object. *)
Theorem get_single_video_info_failures url tool :
  (exists log r, get_single_video_info url tool = (log, Ok r))
  /\ (tool = CommTimeout ->
      get_single_video_info url tool
      = (single_head url ++ [Ui LError (py "Fetching single video info timed out.")],
         Ok None))
  /\ (forall msg,
        tool = CommFails msg ->
        get_single_video_info url tool
        = (single_head url
           ++ [Ui LError (py "An exception occurred while fetching single video info: "
                          ++ msg)],
           Ok None))
  /\ (forall rc out err,
        tool = CommDone rc out err -> rc <> 0%Z ->
        snd (get_single_video_info url tool) = Ok None
        /\ Ui LError (py "Error fetching video info (yt-dlp exited with "
                      ++ str_int rc ++ py "):")
             ∈ fst (get_single_video_info url tool))
  /\ (forall out err,
        tool = CommDone 0 out err -> strip out = [] ->
        get_single_video_info url tool
        = (single_head url
           ++ [Ui LWarning (py "No output from yt-dlp for single video info.")],
           Ok None))
  /\ (forall out err msg,
        tool = CommDone 0 out err -> truthy (strip out) = true ->
        json_loads out = inr (JSONDecodeError msg) ->
        get_single_video_info url tool
        = (single_head url
           ++ [Ui LError (py "Could not parse single video JSON: " ++ out
                          ++ py ". Error: " ++ msg)],
           Ok None))
  /\ (forall out err x,
        tool = CommDone 0 out err -> truthy (strip out) = true ->
        json_loads out = inl x -> (forall d, x <> PDict d) ->
        get_single_video_info url tool
        = (single_head url
           ++ [Ui LError (py "An exception occurred while fetching single video info: "
                          ++ py "'" ++ type_name x
                          ++ py "' object has no attribute 'get'")],
           Ok None)).
Proof.
  split; [|split; [|split; [|split; [|split; [|split]]]]].
  - destruct tool as [rc out err| |msg]; run_single; eauto.
    destruct (rc =? 0)%Z; simpl.
    + destruct (truthy (strip out)); simpl; eauto.
      destruct (json_loads out) as [[]|[]]; simpl; eauto.
    + destruct (truthy err), (truthy out); simpl; eauto.
  - by intros ->.
  - by intros msg ->.
  - intros rc out err -> Hrc. run_single.
    apply Z.eqb_neq in Hrc. rewrite Hrc. simpl.
    destruct (truthy err), (truthy out); simpl; (split; [done|set_solver]).
  - intros out err -> Hempty. run_single. by rewrite Hempty.
  - intros out err msg -> Hne Hl. run_single. by rewrite Hne, Hl.
  - intros out err x -> Hne Hl Hx. run_single. rewrite Hne, Hl. simpl.
    destruct x; try done. by destruct (Hx items).
Qed.

Ltac run_playlist :=
  unfold get_playlist_info, communicate, when_truthy, fetch_head; simpl.
Ltac run_playlist_in H :=
  unfold get_playlist_info, communicate, when_truthy in H; simpl in H.

(** X10. Whenever the tool does not end with exit code 0 (it timed out,
    it could not be spawned or read, it exited with another code),
    [get_playlist_info] returns the empty list and shows an error: that the
    fetch timed out, or the text of the exception, or the exit code. *)
Theorem get_playlist_info_tool_failure url tool :
  (forall out err, tool <> CommDone 0 out err) ->
  snd (get_playlist_info url tool) = Ok []
  /\ exists text,
      Ui LError text ∈ fst (get_playlist_info url tool)
      /\ (tool = CommTimeout ->
          text = py "Fetching playlist info timed out. The playlist might be very large or there could be network issues.")
      /\ (forall msg, tool = CommFails msg ->
          text = py "An exception occurred while fetching playlist info: " ++ msg)
      /\ (forall rc out err, tool = CommDone rc out err ->
          text = py "Error fetching playlist info (yt-dlp exited with "
                 ++ str_int rc ++ py "):").
Proof.
  intros Hno. destruct tool as [rc out err| |msg].
  - run_playlist. destruct (rc =? 0)%Z eqn:Hrc; simpl.
    { apply Z.eqb_eq in Hrc as ->. by destruct (Hno out err). }
    destruct (truthy err), (truthy out); simpl; (split; [done|]);
      exists (py "Error fetching playlist info (yt-dlp exited with "
              ++ str_int rc ++ py "):");
      (split; [set_solver|]); (split; [done|]); (split; [done|]);
      by intros ? ? ? [= <- _ _].
  - split; [done|].
    exists (py "Fetching playlist info timed out. The playlist might be very large or there could be network issues.").
    split; [run_playlist; set_solver|]. by repeat split.
  - split; [done|].
    exists (py "An exception occurred while fetching playlist info: " ++ msg).
    split; [run_playlist; set_solver|].
    split; [done|]. split; [by intros ? [= <-]|]. done.
Qed.

(** X11. A line that is JSON but not an object is not skipped: when the
    lines before it are harmless, the call shows that the value has no
    attribute [get] and returns the empty list, dropping the records of the
    lines already read. *)
Theorem get_playlist_info_non_object_line url out err pre line post x :
  split NL (strip out) = pre ++ line :: post ->
  Forall harmless pre ->
  truthy line = true ->
  json_loads line = inl x ->
  (forall d, x <> PDict d) ->
  snd (get_playlist_info url (CommDone 0 out err)) = Ok []
  /\ Ui LError (py "An exception occurred while fetching playlist info: "
                ++ py "'" ++ type_name x ++ py "' object has no attribute 'get'")
       ∈ fst (get_playlist_info url (CommDone 0 out err)).
Proof.
  intros Hs Hpre Ht Hl Hx.
  pose proof (nonempty_line_nonempty_output _ _ _ _ Hs Ht) as Hne.
  assert (Hfate : fate_of line = Aborted (no_attribute_get x)).
  { unfold fate_of. rewrite Ht, Hl. destruct x; try done. by destruct (Hx items). }
  run_playlist. rewrite Hne. simpl. unfold enumerate. rewrite Hs.
  rewrite (playlist_loop_aborts 0 pre line post _ [] Hpre Hfate). simpl.
  split; [done|]. set_solver.
Qed.

(** X12. A line that decodes to an object with a [playlist_index] that
    is not null keeps it, wherever the line stands: the tool's value is the
    record's [filename_playlist_index] and the number in its default
    title, and the position of the line is not used. *)
Theorem authoritative_index_is_kept url out err pre line post d idx :
  split NL (strip out) = pre ++ line :: post ->
  truthy line = true ->
  json_loads line = inl (PDict d) ->
  dict_get d (py "playlist_index") PNone = idx ->
  idx <> PNone ->
  Forall harmless (pre ++ post) ->
  exists before after v,
    snd (get_playlist_info url (CommDone 0 out err)) = Ok (before ++ v :: after)
    /\ length before = length (List.filter decodes pre)
    /\ v_id v = dict_get d (py "id") PNone
    /\ v_index v = Some idx
    /\ v_title v
       = dict_get d (py "title") (PStr (py "Untitled Video " ++ py_format idx)).
Proof.
  intros Hs Ht Hl Hidx Hnone Hall.
  pose proof (nonempty_line_nonempty_output _ _ _ _ Hs Ht) as Hne.
  assert (Hlines : Forall harmless (split NL (strip out))).
  { rewrite Hs. apply Forall_app in Hall as [Hpre Hpost].
    apply Forall_app. split; [done|]. constructor; [|done].
    right. left. eauto. }
  rewrite (get_playlist_info_harmless _ _ _ Hne Hlines). simpl.
  unfold enumerate. rewrite Hs, enumerate_from_app, records_app. simpl.
  rewrite (fate_appended _ _ Ht Hl).
  eexists _, _, _. split; [reflexivity|]. split; [apply length_records|].
  unfold playlist_record, naming_index. simpl. rewrite Hidx.
  by destruct idx.
Qed.

(** X21. When every line of the output decodes to a JSON object, the
    call returns one record per line, in the order of the lines, each with
    the position of its line as fallback index, and shows no warning. *)
Theorem all_lines_decode url out err ds :
  truthy (strip out) = true ->
  Forall2 (fun l d => truthy l = true /\ json_loads l = inl (PDict d))
    (split NL (strip out)) ds ->
  get_playlist_info url (CommDone 0 out err)
  = (fetch_head url, Ok (imap (fun j d => playlist_record j d) ds)).
Proof.
  intros Hne Hall.
  rewrite (get_playlist_info_harmless _ _ _ Hne (decoded_harmless _ _ Hall)).
  unfold enumerate. rewrite (records_decoded 0 _ _ Hall). f_equal.
  assert (Hw : forall i lines ds',
    Forall2 (fun l d => truthy l = true /\ json_loads l = inl (PDict d)) lines ds' ->
    warnings (enumerate_from i lines) = []).
  { intros i lines ds' Hd. revert i.
    induction Hd as [|l d lines ds' [Ht Hl] _ IH]; intros i; simpl; [done|].
    by rewrite (fate_appended _ _ Ht Hl). }
  rewrite (Hw 0 _ _ Hall). apply app_nil_r.
Qed.

Lemma lines_accounted i lines :
  Forall harmless lines ->
  length (records (enumerate_from i lines))
  + length (warnings (enumerate_from i lines))
  + length (List.filter (fun l => negb (truthy l)) lines)
  = length lines.
Proof.
  intros Hall. revert i. induction Hall as [|l lines Hl _ IH]; intros i; simpl.
  - done.
  - specialize (IH (S i)).
    pose proof (proj1 (harmless_fate l) Hl) as Hf. unfold fate_of in Hf |- *.
    destruct (truthy l); simpl; [|lia].
    destruct (json_loads l) as [v|e].
    + destruct v; try (by exfalso; eapply Hf). simpl. lia.
    + destruct e; try (by exfalso; eapply Hf). simpl. lia.
Qed.

Lemma warnings_are_warnings lines :
  List.filter is_warning (warnings lines) = warnings lines.
Proof.
  induction lines as [|[i l] lines IH]; simpl; [done|].
  destruct (fate_of l); simpl; by rewrite ?IH.
Qed.

(** X13. On output whose lines are each empty, not JSON or a JSON
    object, every line is accounted for once: the number of records
    returned, the number of warnings shown and the number of empty lines
    add up to the number of lines. *)
Theorem every_line_is_accounted_for url out err :
  truthy (strip out) = true ->
  Forall harmless (split NL (strip out)) ->
  exists log videos,
    get_playlist_info url (CommDone 0 out err) = (log, Ok videos)
    /\ length videos
       + length (List.filter is_warning log)
       + length (List.filter (fun l => negb (truthy l)) (split NL (strip out)))
       = length (split NL (strip out)).
Proof.
  intros Hne Hall. eexists _, _.
  split; [by apply get_playlist_info_harmless|].
  rewrite List.filter_app. simpl. rewrite warnings_are_warnings.
  by apply lines_accounted.
Qed.

(** The records of [get_playlist_info]: each is the record of some
    object. *)
Lemma playlist_videos_are_records url tool videos v :
  snd (get_playlist_info url tool) = Ok videos -> v ∈ videos ->
  exists i d, v = playlist_record i d.
Proof.
  intros Hres Hv.
  destruct tool as [rc out err| |msg];
    [|run_playlist_in Hres; injection Hres as <-; by apply elem_of_nil in Hv ..].
  run_playlist_in Hres. destruct (rc =? 0)%Z; simpl in Hres.
  - destruct (truthy (strip out)) eqn:Hne; simpl in Hres;
      [|injection Hres as <-; by apply elem_of_nil in Hv].
    destruct (playlist_loop_ends (enumerate (split NL (strip out))) [])
      as [log [E|[e E]]]; rewrite E in Hres; simpl in Hres.
    + injection Hres as <-.
      apply elem_of_records in Hv as (j & line & d & _ & _ & _ & ->). eauto.
    + destruct e; simpl in Hres; injection Hres as <-;
        by apply elem_of_nil in Hv.
  - destruct (truthy err), (truthy out); simpl in Hres; injection Hres as <-;
      by apply elem_of_nil in Hv.
Qed.

(** Without an exit code of 0 there is no record. *)
Lemma get_playlist_info_needs_exit_0 url tool :
  (forall out err, tool <> CommDone 0 out err) ->
  snd (get_playlist_info url tool) = Ok [].
Proof.
  intros Hno. destruct tool as [rc out err| |msg]; [|done..].
  run_playlist. destruct (rc =? 0)%Z eqn:Hrc; simpl.
  - apply Z.eqb_eq in Hrc as ->. by destruct (Hno out err).
  - by destruct (truthy err), (truthy out).
Qed.

Lemma get_single_video_info_needs_exit_0 url tool :
  (forall out err, tool <> CommDone 0 out err) ->
  snd (get_single_video_info url tool) = Ok None.
Proof.
  intros Hno. destruct tool as [rc out err| |msg]; [|done..].
  run_single. destruct (rc =? 0)%Z eqn:Hrc; simpl.
  - apply Z.eqb_eq in Hrc as ->. by destruct (Hno out err).
  - by destruct (truthy err), (truthy out).
Qed.

(** The record of [get_single_video_info] has the submitted URL and no
    index. *)
Lemma single_video_shape url tool v :
  snd (get_single_video_info url tool) = Ok (Some v) ->
  v_url v = url /\ v_index v = None.
Proof.
  destruct tool as [rc out err| |msg]; run_single; [|done..].
  destruct (rc =? 0)%Z; simpl.
  - destruct (truthy (strip out)); simpl; [|done].
    destruct (json_loads out) as [[]|[]]; simpl; try done.
    by intros [= <-].
  - by destruct (truthy err), (truthy out).
Qed.

Lemma naming_index_not_none i d : naming_index i d <> PNone.
Proof.
  unfold naming_index. by destruct (dict_get d (py "playlist_index") PNone).
Qed.

End FetcherCases.

(** ** The session, run by run *)

Section SessionRuns.
Context `{PyRuntime} {K : Type} `{Countable K}.
Variable key_of : pyval -> option K.

Lemma display_phase_keeps w (s : session (K:=K)) :
  url_input (flow_val (display_phase key_of w s)) = url_input s
  /\ videos_to_process (flow_val (display_phase key_of w s))
     = videos_to_process s.
Proof. unfold display_phase. by destruct (display_loop _ _ _ _ _). Qed.

Lemma cleanup_phase_keeps w (s : session (K:=K)) :
  url_input (cleanup_phase w s) = url_input s
  /\ videos_to_process (cleanup_phase w s) = videos_to_process s.
Proof. unfold cleanup_phase. by repeat case_match. Qed.

(** What a triggered fetch leaves: the new URL, an empty store, and the
    records of the fetcher that the URL selects. *)
Lemma fetch_phase_triggered w (s : session (K:=K)) :
  fetch_triggered w s = true ->
  url_input (flow_val (fetch_phase w s)) = current_url_input w
  /\ download_status (flow_val (fetch_phase w s)) = ∅
  /\ (truthy (current_url_input w) = false ->
      videos_to_process (flow_val (fetch_phase w s)) = [])
  /\ (is_playlist (current_url_input w) = true ->
      videos_to_process (flow_val (fetch_phase w s)) = []
      \/ snd (get_playlist_info (current_url_input w) (fetch_tool w))
         = Ok (videos_to_process (flow_val (fetch_phase w s))))
  /\ (is_playlist (current_url_input w) = false ->
      videos_to_process (flow_val (fetch_phase w s)) = []
      \/ exists v,
          snd (get_single_video_info (current_url_input w) (fetch_tool w))
          = Ok (Some v)
          /\ videos_to_process (flow_val (fetch_phase w s)) = [v]).
Proof.
  intros Ht. unfold fetch_phase. rewrite Ht.
  destruct (truthy (current_url_input w)) eqn:Hu; simpl.
  2:{ repeat split; auto. }
  destruct (is_playlist (current_url_input w)) eqn:Hp.
  - destruct (get_playlist_info _ _) as [log [[|v vs]| |]]; simpl;
      repeat split; auto; done.
  - destruct (get_single_video_info _ _) as [log [[v|]| |]]; simpl;
      repeat split; eauto; done.
Qed.

(** X14. In every session the script can reach, the working set agrees
    with the kind of the URL.  For a playlist URL every video carries an
    index that is not [None] and the constructed watch URL, so its download
    is named with the index; for any other URL there is at most one video,
    it carries no index, and its URL is the submitted one. *)
Theorem working_set_matches_url (s : session (K:=K)) :
  reachable key_of s ->
  (is_playlist (url_input s) = true ->
   forall v, v ∈ videos_to_process s ->
     (exists idx, v_index v = Some idx /\ idx <> PNone)
     /\ v_url v = py "https://www.youtube.com/watch?v=" ++ py_format (v_id v))
  /\ (is_playlist (url_input s) = false ->
      length (videos_to_process s) <= 1
      /\ forall v, v ∈ videos_to_process s ->
           v_index v = None /\ v_url v = url_input s).
Proof.
  induction 1 as [|w s _ IH].
  - simpl. split; intros _; [by intros v ?%elem_of_nil|].
    split; [lia | by intros v ?%elem_of_nil].
  - assert (Hfetch :
      (is_playlist (url_input (flow_val (fetch_phase w s))) = true ->
       forall v, v ∈ videos_to_process (flow_val (fetch_phase w s)) ->
         (exists idx, v_index v = Some idx /\ idx <> PNone)
         /\ v_url v = py "https://www.youtube.com/watch?v=" ++ py_format (v_id v))
      /\ (is_playlist (url_input (flow_val (fetch_phase w s))) = false ->
          length (videos_to_process (flow_val (fetch_phase w s))) <= 1
          /\ forall v, v ∈ videos_to_process (flow_val (fetch_phase w s)) ->
               v_index v = None
               /\ v_url v = url_input (flow_val (fetch_phase w s)))).
    { destruct (fetch_phase_store w s) as [[_ ->]|[Ht _]]; [done|].
      destruct (fetch_phase_triggered w s Ht) as (-> & _ & _ & Hpl & Hsg).
      split; intros Hp.
      - destruct (Hpl Hp) as [->|Hres]; [by intros v ?%elem_of_nil|].
        intros v Hv.
        destruct (playlist_videos_are_records _ _ _ _ Hres Hv) as (i & d & ->).
        split; [|done]. eexists. split; [done|]. apply naming_index_not_none.
      - destruct (Hsg Hp) as [->|(v0 & Hres & ->)];
          [split; [simpl; lia | by intros v ?%elem_of_nil]|].
        split; [simpl; lia|]. intros v ->%list_elem_of_singleton.
        destruct (single_video_shape _ _ _ Hres). done. }
    destruct (script_run_phases key_of w s) as (s1 & s2 & -> & -> & [->|[->| ->]]).
    + done.
    + destruct (display_phase_keeps w (flow_val (fetch_phase w s))) as [-> ->].
      done.
    + destruct (cleanup_phase_keeps w
                  (flow_val (display_phase key_of w (flow_val (fetch_phase w s)))))
        as [-> ->].
      destruct (display_phase_keeps w (flow_val (fetch_phase w s))) as [-> ->].
      done.
Qed.

(** What the display loop can write: the entry of a started download, or
    the outcome of a download that returned. *)
Lemma display_loop_writes w url videos (store : gmap K job) :
  flow_val (display_loop key_of w url videos store) = store
  \/ exists k j,
      flow_val (display_loop key_of w url videos store) = <[k := j]> store
      /\ (j = {| j_status := processing; j_path := None |}
          \/ exists video_url idx r,
              snd (download_video_yt_dlp (dl w) video_url DOWNLOAD_DIR idx) = Ok r
              /\ j = download_outcome w r).
Proof.
  induction videos as [|[index v] rest IH]; simpl; [by left|].
  destruct (key_of (v_id v)) as [k|]; simpl; [|by left].
  destruct (status_of store k); try done.
  - destruct (clicked w (start_key (v_id v) index)); simpl; [|done].
    right. eauto.
  - destruct (download_video_yt_dlp _ _ _ _) as [log [r| |]] eqn:E; simpl;
      [|by left..].
    right. eexists _, _. split; [done|]. right. eexists _, _, r.
    rewrite E. done.
  - destruct (j_path (status_info store k)) as [p|]; [|done].
    destruct (truthy p && exists_shown w p && open_error w p); [by left|done].
Qed.

(** X15. In every session the script can reach, each stored entry has
    one of three shapes: processing without a path; completed with a path
    that is not empty and has no white space around it; or failed with the
    text [Server download failed.]. *)
Theorem stored_entries_are_well_formed (s : session (K:=K)) :
  reachable key_of s ->
  forall k j,
    download_status s !! k = Some j ->
    j = {| j_status := processing; j_path := None |}
    \/ (exists p, j = {| j_status := completed; j_path := Some p |}
                  /\ p <> [] /\ strip p = p)
    \/ j = failed_job.
Proof.
  induction 1 as [|w s _ IH]; intros k j.
  - simpl. by rewrite lookup_empty.
  - assert (Hfetch : forall k j,
      download_status (flow_val (fetch_phase w s)) !! k = Some j ->
      j = {| j_status := processing; j_path := None |}
      \/ (exists p, j = {| j_status := completed; j_path := Some p |}
                    /\ p <> [] /\ strip p = p)
      \/ j = failed_job).
    { intros k' j'. destruct (fetch_phase_store w s) as [[_ ->]|[_ ->]];
        [apply IH | by rewrite lookup_empty]. }
    assert (Hdisplay : forall k j,
      download_status
        (flow_val (display_phase key_of w (flow_val (fetch_phase w s)))) !! k
      = Some j ->
      j = {| j_status := processing; j_path := None |}
      \/ (exists p, j = {| j_status := completed; j_path := Some p |}
                    /\ p <> [] /\ strip p = p)
      \/ j = failed_job).
    { intros k' j'.
      rewrite (proj1 (display_phase_store key_of w (flow_val (fetch_phase w s)))).
      destruct (display_loop_writes w (url_input (flow_val (fetch_phase w s)))
                  (enumerate (videos_to_process (flow_val (fetch_phase w s))))
                  (download_status (flow_val (fetch_phase w s))))
        as [->|(k0 & j0 & -> & Hj0)]; [apply Hfetch|].
      rewrite lookup_insert. destruct (decide (k0 = k')); [|apply Hfetch].
      intros [= <-]. destruct Hj0 as [->|(u & idx & r & Hres & ->)]; [by left|].
      right. unfold download_outcome. destruct r as [p|]; [|by right].
      destruct (truthy p && exists_after w p); [|by right].
      left. exists p. split; [done|].
      apply download_path_is_kept in Hres as (out & _ & Hin).
      by apply kept_lines_stripped in Hin. }
    destruct (script_run_phases key_of w s) as (s1 & s2 & -> & -> & [->|[->| ->]]).
    + apply Hfetch.
    + apply Hdisplay.
    + destruct (cleanup_phase_store w
                  (flow_val (display_phase key_of w (flow_val (fetch_phase w s)))))
        as [_ [->|[-> _]]]; [apply Hdisplay | by rewrite lookup_empty].
Qed.

(** X16. Clicking Fetch while the text input is empty puts the session
    back into its initial state: no URL, no videos, no statuses. *)
Theorem fetch_with_empty_url_resets w (s : session (K:=K)) :
  clicked w (py "fetch_button") = true ->
  current_url_input w = [] ->
  script_run key_of w s = initial_session.
Proof.
  intros Hc Hu. unfold script_run, fetch_phase, fetch_triggered.
  rewrite Hc, Hu. simpl. unfold cleanup_phase. simpl.
  by repeat case_match.
Qed.

(** X17. A fetch that brings nothing back still replaces the session: when
    a fetch is triggered and the tool does not end with exit code 0, the
    URL is the new one, the working set is empty and so is the store; the
    videos and statuses of the previous URL are gone. *)
Theorem failed_fetch_clears_working_set w (s : session (K:=K)) :
  fetch_triggered w s = true ->
  (forall out err, fetch_tool w <> CommDone 0 out err) ->
  fetch_phase w s
  = Continue {| url_input := current_url_input w; videos_to_process := [];
                download_status := ∅ |}.
Proof.
  intros Ht Hno. unfold fetch_phase. rewrite Ht.
  destruct (truthy (current_url_input w)); simpl; [|done].
  destruct (is_playlist (current_url_input w)).
  - pose proof (get_playlist_info_needs_exit_0 (current_url_input w) _ Hno) as E.
    destruct (get_playlist_info _ _) as [log r]. simpl in E. by subst r.
  - pose proof (get_single_video_info_needs_exit_0 (current_url_input w) _ Hno)
      as E.
    destruct (get_single_video_info _ _) as [log r]. simpl in E. by subst r.
Qed.

(** X18. The display loop of one run writes at most one entry of the
    store and leaves the URL and the working set as they are: two keys
    whose entries differ after the loop are the same key. *)
Theorem display_writes_one_entry w (s : session (K:=K)) k1 k2 :
  download_status (flow_val (display_phase key_of w s)) !! k1
  <> download_status s !! k1 ->
  download_status (flow_val (display_phase key_of w s)) !! k2
  <> download_status s !! k2 ->
  k1 = k2
  /\ url_input (flow_val (display_phase key_of w s)) = url_input s
  /\ videos_to_process (flow_val (display_phase key_of w s))
     = videos_to_process s.
Proof.
  destruct (display_phase_keeps w s) as [-> ->].
  rewrite (proj1 (display_phase_store key_of w s)).
  destruct (display_loop_writes w (url_input s) (enumerate (videos_to_process s))
              (download_status s)) as [->|(k & j & -> & _)]; [done|].
  rewrite !lookup_insert. intros H1 H2.
  destruct (decide (k = k1)) as [<-|]; [|done].
  destruct (decide (k = k2)) as [<-|]; done.
Qed.


End SessionRuns.

(** ** The classifier on longer strings *)

(** X20. Whatever is put before or after a URL that is classified as a
    playlist, the result is classified as a playlist too: the classifier
    does not look at where in the string its evidence stands. *)
Theorem is_playlist_of_embedded (a url b : pystr) :
  is_playlist url = true -> is_playlist (a ++ url ++ b) = true.
Proof.
  assert (Hsub : forall u, is_playlist u = true -> contains (py "list=") u = true).
  { intros u. unfold is_playlist.
    destruct (any_pattern playlist_patterns u) eqn:E; [|done].
    intros _. by apply any_pattern_implies_substring. }
  intros (x & y & ->)%Hsub%contains_spec.
  unfold is_playlist. destruct (any_pattern playlist_patterns _); [done|].
  apply contains_spec. exists (a ++ x), (y ++ b). by rewrite <- !app_assoc.
Qed.

(** *** The further properties on concrete worlds *)

(** X4 at the tool that prints the file name and an empty line. *)
Lemma download_path_is_stripped_witness :
  py "yt_dlp_downloads/Foo.mp4" <> []
  /\ strip (py "yt_dlp_downloads/Foo.mp4") = py "yt_dlp_downloads/Foo.mp4"
  /\ forall rw,
      download_outcome rw (Some (py "yt_dlp_downloads/Foo.mp4"))
      = if exists_after rw (py "yt_dlp_downloads/Foo.mp4")
        then {| j_status := completed;
                j_path := Some (py "yt_dlp_downloads/Foo.mp4") |}
        else failed_job.
Proof.
  apply (@download_path_is_stripped example_runtime world_blank_tail single_url
           DOWNLOAD_DIR PNone).
  vm_compute. reflexivity.
Defined.

(** X6 at the tool that is not installed. *)
Lemma download_unexpected_error_witness :
  @download_video_yt_dlp example_runtime world_popen_fails single_url
    DOWNLOAD_DIR PNone
  = (@download_prelude example_runtime world_popen_fails single_url
       DOWNLOAD_DIR PNone
     ++ [Popen (@download_command example_runtime single_url DOWNLOAD_DIR PNone);
         Ui LError (py "An unexpected error occurred during download: "
                    ++ py "[Errno 2] No such file or directory: 'yt-dlp'")],
     Ok None).
Proof.
  apply (@download_unexpected_error example_runtime world_popen_fails).
  - by left.
  - by left.
Defined.

(** X7 at an exit code of 1 and at a file that is not there. *)
Lemma download_failure_is_explained_witness :
  Ui LError (py "Download failed for " ++ single_url
             ++ py " (yt-dlp exit code: " ++ str_int 1 ++ py ").")
    ∈ fst (@download_video_yt_dlp example_runtime world_exit_1 single_url
             DOWNLOAD_DIR PNone)
  /\ Ui LError (py "yt-dlp reported success, but file not found: "
                ++ py "yt_dlp_downloads/Foo.mp4")
       ∈ fst (@download_video_yt_dlp example_runtime world_missing_file
                single_url DOWNLOAD_DIR PNone).
Proof.
  split.
  - apply (proj1 (@download_failure_is_explained example_runtime world_exit_1
                    single_url DOWNLOAD_DIR PNone []
                    (py "ERROR: Video unavailable" ++ [NL]) 1%Z
                    (or_introl eq_refl) eq_refl eq_refl eq_refl eq_refl)).
    lia.
  - pose proof (proj2 (@download_failure_is_explained example_runtime
                         world_missing_file single_url DOWNLOAD_DIR PNone
                         (py "yt_dlp_downloads/Foo.mp4" ++ [NL]) [] 0%Z
                         (or_introl eq_refl) eq_refl eq_refl eq_refl eq_refl)
                  eq_refl) as Hmissing.
    apply Hmissing; vm_compute; [discriminate | reflexivity].
Defined.

(** X10 at a tool that does not answer in time. *)
Lemma get_playlist_info_tool_failure_witness :
  snd (@get_playlist_info example_runtime (py "u") CommTimeout) = Ok [].
Proof.
  apply (@get_playlist_info_tool_failure example_runtime (py "u") CommTimeout).
  discriminate.
Defined.

(** X11 at the lines [{}] and [5]. *)
Lemma get_playlist_info_non_object_line_witness :
  snd (@get_playlist_info example_runtime (py "u")
         (CommDone 0 (join [NL] [py "{}"; py "5"]) [])) = Ok [].
Proof.
  apply (@get_playlist_info_non_object_line example_runtime (py "u")
           (join [NL] [py "{}"; py "5"]) [] [py "{}"] (py "5") [] (PInt 5)).
  - vm_compute. reflexivity.
  - harmless_lines.
  - vm_compute. reflexivity.
  - vm_compute. reflexivity.
  - discriminate.
Defined.

(** X12 at [four_lines]: the first line has index 1 of its own. *)
Lemma authoritative_index_witness :
  exists before after v,
    snd (@get_playlist_info example_runtime (py "u") (CommDone 0 four_lines []))
    = Ok (before ++ v :: after)
    /\ length before = 0
    /\ v_id v = PStr (py "v1")
    /\ v_index v = Some (PInt 1)
    /\ v_title v = PStr (py "One").
Proof.
  apply (@authoritative_index_is_kept example_runtime (py "u") four_lines [] []
           (pyq "{'id': 'v1', 'title': 'One', 'playlist_index': 1}")
           [[]; py "not json"; pyq "{'title': 'Two'}"]
           [(py "id", PStr (py "v1")); (py "title", PStr (py "One"));
            (py "playlist_index", PInt 1)] (PInt 1)).
  - vm_compute. reflexivity.
  - vm_compute. reflexivity.
  - vm_compute. reflexivity.
  - vm_compute. reflexivity.
  - discriminate.
  - harmless_lines.
Defined.

(** X13 at [four_lines]: two records, one warning, one empty line. *)
Lemma every_line_is_accounted_for_witness :
  exists log videos,
    @get_playlist_info example_runtime (py "u") (CommDone 0 four_lines [])
    = (log, Ok videos)
    /\ length videos + length (List.filter is_warning log)
       + length (List.filter (fun l => negb (truthy l)) (split NL (strip four_lines)))
       = length (split NL (strip four_lines)).
Proof.
  apply (@every_line_is_accounted_for example_runtime (py "u") four_lines []).
  - vm_compute. reflexivity.
  - assert (split NL (strip four_lines)
            = [pyq "{'id': 'v1', 'title': 'One', 'playlist_index': 1}"; [];
               py "not json"; pyq "{'title': 'Two'}"]) as ->
      by (vm_compute; reflexivity).
    harmless_lines.
Defined.

(** X14 at the session after the first fetch of a single video. *)
Lemma working_set_matches_url_witness :
  length (videos_to_process
            (@script_run example_runtime _ _ _ example_key_of
               (run_with world_exit_1) initial_session)) <= 1
  /\ forall v,
      v ∈ videos_to_process
            (@script_run example_runtime _ _ _ example_key_of
               (run_with world_exit_1) initial_session) ->
      v_index v = None
      /\ v_url v
         = url_input (@script_run example_runtime _ _ _ example_key_of
                        (run_with world_exit_1) initial_session).
Proof.
  apply (@working_set_matches_url example_runtime _ _ _ example_key_of).
  - apply reach_run, reach_init.
  - vm_compute. reflexivity.
Defined.

(** X15 at the session after a fetch, a click on Start and a download:
    the entry of [abc123] is completed, with the stripped file name. *)
Lemma stored_entries_witness :
  {| j_status := completed; j_path := Some (py "yt_dlp_downloads/Foo.mp4") |}
  = {| j_status := processing; j_path := None |}
  \/ (exists p,
        {| j_status := completed; j_path := Some (py "yt_dlp_downloads/Foo.mp4") |}
        = {| j_status := completed; j_path := Some p |}
        /\ p <> [] /\ strip p = p)
  \/ {| j_status := completed; j_path := Some (py "yt_dlp_downloads/Foo.mp4") |}
     = failed_job.
Proof.
  apply (@stored_entries_are_well_formed example_runtime _ _ _ example_key_of
           (@script_run example_runtime _ _ _ example_key_of
              (run_with world_blank_tail)
              (@script_run example_runtime _ _ _ example_key_of
                 (run_start_with world_blank_tail)
                 (@script_run example_runtime _ _ _ example_key_of
                    (run_with world_blank_tail) initial_session)))
           ltac:(do 3 apply reach_run; apply reach_init)
           (Some (py "abc123"))).
  vm_compute. reflexivity.
Defined.

(** X16 at a click on Fetch with nothing typed, after a video was
    fetched. *)
Lemma fetch_with_empty_url_witness :
  @script_run example_runtime _ _ _ example_key_of (run_fetch_timeout [])
    processing_session
  = initial_session.
Proof.
  by apply (@fetch_with_empty_url_resets example_runtime _ _ _ example_key_of).
Defined.

(** X17 at a fetch of another URL that times out. *)
Lemma failed_fetch_witness :
  @fetch_phase example_runtime _ _ _ (run_fetch_timeout (py "https://youtu.be/other"))
    processing_session
  = Continue {| url_input := py "https://youtu.be/other";
                videos_to_process := []; download_status := ∅ |}.
Proof.
  by apply (@failed_fetch_clears_working_set example_runtime).
Defined.


(** X18 at the run in which the download of [abc123] ends: only its entry
    changes. *)
Lemma display_writes_one_entry_witness :
  Some (py "abc123") = Some (py "abc123")
  /\ url_input
       (flow_val (@display_phase example_runtime _ _ _ example_key_of
                    (run_with world_blank_tail) processing_session))
     = url_input processing_session
  /\ videos_to_process
       (flow_val (@display_phase example_runtime _ _ _ example_key_of
                    (run_with world_blank_tail) processing_session))
     = videos_to_process processing_session.
Proof.
  apply (@display_writes_one_entry example_runtime _ _ _ example_key_of
           (run_with world_blank_tail) processing_session);
    vm_compute; discriminate.
Defined.

(** X20 at a playlist URL inside a longer text. *)
Lemma is_playlist_of_embedded_witness :
  is_playlist (py "see " ++ py "youtube.com/playlist?list=PL9" ++ py " now") = true.
Proof.
  apply is_playlist_of_embedded. vm_compute. reflexivity.
Defined.

(** X21 at two lines that decode. *)
Lemma all_lines_decode_witness :
  @get_playlist_info example_runtime (py "u")
    (CommDone 0 (join [NL] [py "{}"; pyq "{'title': 'Two'}"]) [])
  = (fetch_head (py "u"),
     Ok (imap (fun j d => @playlist_record example_runtime j d)
           [[]; [(py "title", PStr (py "Two"))]])).
Proof.
  apply (@all_lines_decode example_runtime).
  - vm_compute. reflexivity.
  - assert (split NL (strip (join [NL] [py "{}"; pyq "{'title': 'Two'}"]))
            = [py "{}"; pyq "{'title': 'Two'}"]) as ->
      by (vm_compute; reflexivity).
    repeat constructor.
Defined.
